(** * benchmark_utils/init_solver.py: operator selection and optimizer set-up

    A shallow embedding of the two entry points of the module,
    [get_grad_op] and [initialize_opt], together with the module-level
    table [OPTIMIZERS].

    The numerical classes (optimizers, gradient, linear and Fourier
    operators) belong to ModOpt and pysap-mri, and the arrays to numpy.
    They are kept at the level the module itself sees them:
    - an operator is a record of the attributes the module reads;
    - constructing a library object records the class and the keyword
      arguments of the call, the constructor being taken to return;
    - dictionaries live in a heap, since [initialize_opt] pops keys from
      the dictionary its caller handed over. *)

From Stdlib Require Import Floats.PrimFloat.
From stdpp Require Import gmap strings list fin_maps.

#[local] Set Warnings "-inexact-float".
#[local] Open Scope string_scope.

(** ** Values *)

(** A complex scalar, real and imaginary part. *)
Definition complex : Type := float * float.

Definition czero : complex := (0%float, 0%float).

(** A numpy array: element type, shape, and the elements in row-major
    order. *)
Record ndarray : Type := NdArray {
  nd_dtype : string;
  nd_shape : list N;
  nd_data : list complex;
}.

(** The number of elements of an array of that shape. *)
Definition np_size (shape : list N) : N := foldr N.mul 1%N shape.

(** Modelled from the spec: numpy is not among the sources.
    [np.zeros(shape, dtype=dtype)] is the array of that shape and element
    type all of whose elements are zero. *)
Definition np_zeros (shape : list N) (dtype : string) : ndarray :=
  {| nd_dtype := dtype;
     nd_shape := shape;
     nd_data := replicate (N.to_nat (np_size shape)) czero |}.

(** Modelled from the spec: numpy is not among the sources.
    [np.squeeze(a)] drops the axes of length one and keeps the elements. *)
Definition np_squeeze (a : ndarray) : ndarray :=
  {| nd_dtype := nd_dtype a;
     nd_shape := filter (λ n, n ≠ 1%N) (nd_shape a);
     nd_data := nd_data a |}.

(** The attributes read from [grad_op.fourier_op]. *)
Module Fourier.
Record t : Type := Build { n_coils : N; shape : list N }.
End Fourier.

(** The methods called on a linear operator. *)
Module Linear.
Record t : Type := Build {
  op : ndarray → ndarray;
  adj_op : ndarray → ndarray;
}.
End Linear.

(** The attributes read from [grad_op]. A [GradAnalysis] object has no
    [linear_op] attribute, a [GradSynthesis] object has one. *)
Module Grad.
Record t : Type := Build {
  fourier_op : Fourier.t;
  linear_op : option Linear.t;
  inv_spec_rad : float;
}.
End Grad.

(** A proximity operator is only handed on to the optimizer. *)
Module Prox.
Record t : Type := Build { tag : N }.
End Prox.

Inductive pyval : Type :=
  | VNone
  | VBool (b : bool)
  | VFloat (x : float)
  | VStr (s : string)
  | VArray (a : ndarray)
  | VFourier (o : Fourier.t)
  | VLinear (o : Linear.t)
  | VGrad (o : Grad.t)
  | VProx (o : Prox.t)
  | VIdentity.                     (* the object made by [Identity()] *)

(** A dictionary with string keys; also the keywords of a call. *)
Abbreviation dict := (gmap string pyval).

(** ** Library objects *)

Inductive class : Type :=
  | POGM | ForwardBackward | Condat | GradAnalysis | GradSynthesis.

#[global] Instance class_eq_dec : EqDecision class.
Proof. solve_decision. Defined.

Record instance : Type := Instance {
  cls : class;
  init_kwargs : dict;
}.

(** ** Exceptions *)

Inductive exn : Type :=
  | ValueError (msg : string)
  | TypeError_multiple_values     (* got multiple values for keyword argument *)
  | UnboundLocalError (name : string)
  | AttributeError (name : string).

Inductive outcome (A : Type) : Type :=
  | Returns (a : A)
  | Raises (e : exn).
Arguments Returns {A} a.
Arguments Raises {A} e.

(** ** The store *)

Abbreviation loc := positive.

(** The module-level table. *)
Definition OPTIMIZERS : gmap (option string) (option string) :=
  <[Some "pogm" := Some "synthesis"]>
    (<[Some "fista" := Some "analysis"]>
      (<[Some "condat-vu" := Some "analysis"]>
        (<[None := None]> ∅))).

Record store : Type := Store {
  module_OPTIMIZERS : gmap (option string) (option string);
  heap : gmap loc dict;
}.

(** The store right after the module is imported. *)
Definition module_loaded : store :=
  {| module_OPTIMIZERS := OPTIMIZERS; heap := ∅ |}.

(** ** Computations: state passing, with exceptions *)

Definition M (A : Type) : Type := store → store * outcome A.

#[global] Instance M_ret : MRet M := λ A a s, (s, Returns a).

#[global] Instance M_bind : MBind M := λ A B k m s,
  match m s with
  | (s', Returns a) => k a s'
  | (s', Raises e) => (s', Raises e)
  end.

Definition raise {A : Type} (e : exn) : M A := λ s, (s, Raises e).

(** The dictionary a reference denotes. *)
Definition dict_at (s : store) (l : loc) : dict := default ∅ (heap s !! l).

Definition deref (l : loc) : M dict := λ s, (s, Returns (dict_at s l)).

(** [dict()] *)
Definition new_dict : M loc := λ s,
  let l := fresh (dom (heap s)) in
  ({| module_OPTIMIZERS := module_OPTIMIZERS s; heap := <[l := ∅]> (heap s) |},
   Returns l).

(** [d.pop(key, default)] *)
Definition dict_pop (l : loc) (key : string) (dflt : pyval) : M pyval := λ s,
  match dict_at s l !! key with
  | Some v =>
      ({| module_OPTIMIZERS := module_OPTIMIZERS s;
          heap := <[l := delete key (dict_at s l)]> (heap s) |},
       Returns v)
  | None => (s, Returns dflt)
  end.

(** [a or dict()], for [a] either [None] or a dictionary: an empty
    dictionary is falsy, like [None]. *)
Definition or_dict (a : option loc) : M loc :=
  match a with
  | None => new_dict
  | Some l =>
      d ← deref l;
      if decide (d = ∅) then new_dict else mret l
  end.

(** Reading a local variable that may not have been assigned. *)
Definition read_local {A : Type} (name : string) (v : option A) : M A :=
  match v with
  | Some a => mret a
  | None => raise (UnboundLocalError name)
  end.

(** ** Calls with keyword arguments *)

(** The keywords of a call [f(k1=v1, ..., **d1, **d2)]: a keyword given
    twice is a [TypeError]. *)
Fixpoint merge_keywords (acc : dict) (unpacked : list dict) : option dict :=
  match unpacked with
  | [] => Some acc
  | d :: rest =>
      if decide (acc ##ₘ d) then merge_keywords (acc ∪ d) rest
      else None
  end.

(** Calling a library class. *)
Definition call (c : class) (explicit : list (string * pyval))
    (unpacked : list dict) : M instance :=
  match merge_keywords (list_to_map explicit) unpacked with
  | Some kw => mret {| cls := c; init_kwargs := kw |}
  | None => raise TypeError_multiple_values
  end.

(** ** get_grad_op *)

(** [kwargs] is the dictionary Python collects for [**kwargs]. A call
    that matches neither formulation falls off the end of the function
    and returns [None]. *)
Definition get_grad_op (fourier_op : Fourier.t)
    (grad_formulation : option string) (linear_op : option Linear.t)
    (verbose : bool) (kwargs : dict) : M (option instance) :=
  if decide (grad_formulation = Some "analysis") then
    g ← call GradAnalysis
          [("fourier_op", VFourier fourier_op); ("verbose", VBool verbose)]
          [kwargs];
    mret (Some g)
  else if decide (grad_formulation = Some "synthesis") then
    g ← call GradSynthesis
          [("linear_op", from_option VLinear VNone linear_op);
           ("fourier_op", VFourier fourier_op);
           ("verbose", VBool verbose)]
          [kwargs];
    mret (Some g)
  else mret None.

(** ** initialize_opt *)

(** [str(opt_name)] inside the f-string. *)
Definition py_str (name : option string) : string :=
  match name with
  | Some s => s
  | None => "None"
  end.

Definition not_implemented (opt_name : option string) : string :=
  "Optimizer " ++ py_str opt_name ++ " not implemented".

(** Lines 55 to 61: the default initial value. *)
Definition default_x_init (grad_op : Grad.t) (x_init : option ndarray)
    : ndarray :=
  match x_init with
  | None =>
      np_squeeze
        (np_zeros
           (Fourier.n_coils (Grad.fourier_op grad_op)
              :: Fourier.shape (Grad.fourier_op grad_op))
           "complex64")
  | Some x => x
  end.

(** [hasattr(grad_op, "linear_op")] and [grad_op.linear_op] *)
Definition hasattr_linear_op (grad_op : Grad.t) : bool :=
  match Grad.linear_op grad_op with
  | Some _ => true
  | None => false
  end.

Definition getattr_linear_op (grad_op : Grad.t) : M Linear.t :=
  match Grad.linear_op grad_op with
  | Some l => mret l
  | None => raise (AttributeError "linear_op")
  end.

(** The guards of lines 63, 65 and 67, each as it is written. *)
Definition guard_first (synthesis_init : bool) (grad_op : Grad.t) : bool :=
  negb synthesis_init && hasattr_linear_op grad_op.

Definition guard_second (synthesis_init : bool) (grad_op : Grad.t) : bool :=
  synthesis_init && negb (hasattr_linear_op grad_op).

Definition guard_third (synthesis_init : bool) (grad_op : Grad.t) : bool :=
  negb synthesis_init && hasattr_linear_op grad_op.

(** Lines 63 to 68. The result is the pair of locals [alpha_init] and
    [x_init]; [alpha_init] is [None] while it has not been assigned. *)
Definition initial_values (grad_op : Grad.t) (linear_op : Linear.t)
    (synthesis_init : bool) (x_init : ndarray)
    : M (option ndarray * ndarray) :=
  if guard_first synthesis_init grad_op then
    l ← getattr_linear_op grad_op;
    mret (Some (Linear.op l x_init), x_init)
  else if guard_second synthesis_init grad_op then
    mret (None, Linear.adj_op linear_op x_init)
  else if guard_third synthesis_init grad_op then
    mret (Some x_init, x_init)
  else mret (None, x_init).

(** The same conditional without its second [elif]. *)
Definition initial_values_without_third (grad_op : Grad.t)
    (linear_op : Linear.t) (synthesis_init : bool) (x_init : ndarray)
    : M (option ndarray * ndarray) :=
  if guard_first synthesis_init grad_op then
    l ← getattr_linear_op grad_op;
    mret (Some (Linear.op l x_init), x_init)
  else if guard_second synthesis_init grad_op then
    mret (None, Linear.adj_op linear_op x_init)
  else mret (None, x_init).

(** Lines 69 to 117, from the locals of the first half. The arguments
    of each constructor call are evaluated from left to right: the
    reads of [alpha_init] come before the pops, the pops before the two
    dictionaries are unpacked. *)
Definition dispatch (opt_name : option string) (grad_op : Grad.t)
    (linear_op : Linear.t) (prox_op : Prox.t)
    (alpha_init : option ndarray) (x_init : ndarray)
    (opt_kwargs metric_kwargs : option loc) : M instance :=
  opt_kwargs ← or_dict opt_kwargs;
  metric_kwargs ← or_dict metric_kwargs;
  let beta := Grad.inv_spec_rad grad_op in
  if decide (opt_name = Some "pogm") then
    u ← read_local "alpha_init" alpha_init;
    x ← read_local "alpha_init" alpha_init;
    y ← read_local "alpha_init" alpha_init;
    z ← read_local "alpha_init" alpha_init;
    sigma_bar ← dict_pop opt_kwargs "sigma_bar" (VFloat 0.96);
    auto_iterate ← dict_pop opt_kwargs "auto_iterate" (VBool false);
    opt_kw ← deref opt_kwargs;
    metric_kw ← deref metric_kwargs;
    call POGM
      [("u", VArray u); ("x", VArray x); ("y", VArray y); ("z", VArray z);
       ("grad", VGrad grad_op); ("prox", VProx prox_op);
       ("linear", VLinear linear_op); ("beta_param", VFloat beta);
       ("sigma_bar", sigma_bar); ("auto_iterate", auto_iterate)]
      [opt_kw; metric_kw]
  else if decide (opt_name = Some "fista") then
    lambda_param ← dict_pop opt_kwargs "lambda_param" (VFloat 1.0);
    auto_iterate ← dict_pop opt_kwargs "auto_iterate" (VBool false);
    opt_kw ← deref opt_kwargs;
    metric_kw ← deref metric_kwargs;
    call ForwardBackward
      [("x", VArray x_init); ("grad", VGrad grad_op); ("prox", VProx prox_op);
       ("linear", VLinear linear_op); ("beta_param", VFloat beta);
       ("lambda_param", lambda_param); ("auto_iterate", auto_iterate)]
      [opt_kw; metric_kw]
  else if decide (opt_name = Some "condat-vu") then
    let y_init := Linear.op linear_op x_init in
    opt_kw ← deref opt_kwargs;
    metric_kw ← deref metric_kwargs;
    call Condat
      [("x", VArray x_init); ("y", VArray y_init); ("grad", VGrad grad_op);
       ("prox", VIdentity); ("prox_dual", VProx prox_op);
       ("linear", VLinear linear_op)]
      [opt_kw; metric_kw]
  else raise (ValueError (not_implemented opt_name)).

Definition initialize_opt (opt_name : option string) (grad_op : Grad.t)
    (linear_op : Linear.t) (prox_op : Prox.t) (x_init : option ndarray)
    (synthesis_init : bool) (opt_kwargs metric_kwargs : option loc)
    : M instance :=
  let x_init := default_x_init grad_op x_init in
  '(alpha_init, x_init) ←
    initial_values grad_op linear_op synthesis_init x_init;
  dispatch opt_name grad_op linear_op prox_op alpha_init x_init
    opt_kwargs metric_kwargs.

(** [initialize_opt] with the second [elif] of lines 67 and 68 removed. *)
Definition initialize_opt_without_third (opt_name : option string)
    (grad_op : Grad.t) (linear_op : Linear.t) (prox_op : Prox.t)
    (x_init : option ndarray) (synthesis_init : bool)
    (opt_kwargs metric_kwargs : option loc) : M instance :=
  let x_init := default_x_init grad_op x_init in
  '(alpha_init, x_init) ←
    initial_values_without_third grad_op linear_op synthesis_init x_init;
  dispatch opt_name grad_op linear_op prox_op alpha_init x_init
    opt_kwargs metric_kwargs.

(** ** Vocabulary of the statements *)

(** The dictionary an argument [opt_kwargs] or [metric_kwargs] stands
    for: the empty one for [None]. *)
Definition kwargs_of (s : store) (a : option loc) : dict :=
  from_option (dict_at s) ∅ a.

(** The pure part of [call]. *)
Definition construct (c : class) (explicit : list (string * pyval))
    (unpacked : list dict) : outcome instance :=
  match merge_keywords (list_to_map explicit) unpacked with
  | Some kw => Returns {| cls := c; init_kwargs := kw |}
  | None => Raises TypeError_multiple_values
  end.

(** The keys popped from [opt_kwargs] in the branch of [opt_name]. *)
Definition popped_keys (opt_name : option string) : list string :=
  if decide (opt_name = Some "pogm") then ["sigma_bar"; "auto_iterate"]
  else if decide (opt_name = Some "fista") then ["lambda_param"; "auto_iterate"]
  else [].

(** What is left of a dictionary once those keys are popped. *)
Definition remaining (opt_name : option string) (d : dict) : dict :=
  foldl (λ m k, delete k m) d (popped_keys opt_name).

(** The keywords each branch writes out in its constructor call. *)
Definition explicit_keywords (opt_name : option string) : list string :=
  if decide (opt_name = Some "pogm") then
    ["u"; "x"; "y"; "z"; "grad"; "prox"; "linear"; "beta_param";
     "sigma_bar"; "auto_iterate"]
  else if decide (opt_name = Some "fista") then
    ["x"; "grad"; "prox"; "linear"; "beta_param"; "lambda_param";
     "auto_iterate"]
  else if decide (opt_name = Some "condat-vu") then
    ["x"; "y"; "grad"; "prox"; "prox_dual"; "linear"]
  else [].

(** The class each name stands for. *)
Definition class_of (opt_name : option string) : option class :=
  if decide (opt_name = Some "pogm") then Some POGM
  else if decide (opt_name = Some "fista") then Some ForwardBackward
  else if decide (opt_name = Some "condat-vu") then Some Condat
  else None.

(** The two dictionaries at the moment they are unpacked into the call.
    When [metric_kwargs] is the very object passed as [opt_kwargs], the
    pops have gone through it as well. *)
Definition unpacked_opt (opt_name : option string) (s : store)
    (opt_kwargs : option loc) : dict :=
  remaining opt_name (kwargs_of s opt_kwargs).

Definition unpacked_metric (opt_name : option string) (s : store)
    (opt_kwargs metric_kwargs : option loc) : dict :=
  if decide (opt_kwargs = metric_kwargs)
  then remaining opt_name (kwargs_of s opt_kwargs)
  else kwargs_of s metric_kwargs.

(** No keyword reaches the constructor twice. *)
Definition keywords_distinct (opt_name : option string) (s : store)
    (opt_kwargs metric_kwargs : option loc) : Prop :=
  Forall
    (λ k, unpacked_opt opt_name s opt_kwargs !! k = None ∧
          unpacked_metric opt_name s opt_kwargs metric_kwargs !! k = None)
    (explicit_keywords opt_name) ∧
  unpacked_opt opt_name s opt_kwargs
    ##ₘ unpacked_metric opt_name s opt_kwargs metric_kwargs.

#[global] Instance keywords_distinct_dec opt_name s opt_kwargs metric_kwargs :
  Decision (keywords_distinct opt_name s opt_kwargs metric_kwargs).
Proof. unfold keywords_distinct. apply _. Defined.

(** The names Python binds to the parameters of [get_grad_op] never
    end up in its [**kwargs]. *)
Definition collected_kwargs (kwargs : dict) : Prop :=
  Forall (λ k, kwargs !! k = None)
    ["fourier_op"; "grad_formulation"; "linear_op"; "verbose"].

(** ** Vocabulary of the proofs *)

(** What a step may do to the store: the module table stays, no
    dictionary disappears, and the contents move as [f] says. *)
Record steps (f : loc → dict → dict) (s s' : store) : Prop := Steps {
  steps_table : module_OPTIMIZERS s' = module_OPTIMIZERS s;
  steps_alive : ∀ l, is_Some (heap s !! l) → is_Some (heap s' !! l);
  steps_dict : ∀ l, dict_at s' l = f l (dict_at s l);
}.

Definition untouched : loc → dict → dict := λ _ d, d.

Definition popping (l : loc) (key : string) : loc → dict → dict :=
  λ l' d, if decide (l' = l) then delete key d else d.

(** Whether the branch of [opt_name] gets as far as its pops: the
    [pogm] branch reads [alpha_init] first. *)
Definition runs_pops (opt_name : option string) (alpha_init : option ndarray)
    : bool :=
  if decide (opt_name = Some "pogm") then
    match alpha_init with Some _ => true | None => false end
  else true.

(** The change [dispatch] makes to the dictionaries of its caller. *)
Definition effect_on (opt_name : option string) (alpha_init : option ndarray)
    (opt_kwargs : option loc) : loc → dict → dict :=
  λ l d,
    if decide (opt_kwargs = Some l) then
      if runs_pops opt_name alpha_init then remaining opt_name d else d
    else d.

(** The outcome of [dispatch] in terms of the contents of the two
    dictionaries: [opt_kw] on entry, [opt_rest] and [metric_kw] when
    they are unpacked. *)
Definition outcome_of_dispatch (opt_name : option string) (grad_op : Grad.t)
    (linear_op : Linear.t) (prox_op : Prox.t)
    (alpha_init : option ndarray) (x_init : ndarray)
    (opt_kw opt_rest metric_kw : dict) : outcome instance :=
  let beta := Grad.inv_spec_rad grad_op in
  if decide (opt_name = Some "pogm") then
    match alpha_init with
    | None => Raises (UnboundLocalError "alpha_init")
    | Some a =>
        construct POGM
          [("u", VArray a); ("x", VArray a); ("y", VArray a); ("z", VArray a);
           ("grad", VGrad grad_op); ("prox", VProx prox_op);
           ("linear", VLinear linear_op); ("beta_param", VFloat beta);
           ("sigma_bar", default (VFloat 0.96) (opt_kw !! "sigma_bar"));
           ("auto_iterate",
            default (VBool false) (opt_kw !! "auto_iterate"))]
          [opt_rest; metric_kw]
    end
  else if decide (opt_name = Some "fista") then
    construct ForwardBackward
      [("x", VArray x_init); ("grad", VGrad grad_op); ("prox", VProx prox_op);
       ("linear", VLinear linear_op); ("beta_param", VFloat beta);
       ("lambda_param", default (VFloat 1.0) (opt_kw !! "lambda_param"));
       ("auto_iterate", default (VBool false) (opt_kw !! "auto_iterate"))]
      [opt_rest; metric_kw]
  else if decide (opt_name = Some "condat-vu") then
    construct Condat
      [("x", VArray x_init); ("y", VArray (Linear.op linear_op x_init));
       ("grad", VGrad grad_op); ("prox", VIdentity);
       ("prox_dual", VProx prox_op); ("linear", VLinear linear_op)]
      [opt_rest; metric_kw]
  else Raises (ValueError (not_implemented opt_name)).

(** The locals [alpha_init] and [x_init] after lines 63 to 68. *)
Definition alpha_init_of (synthesis_init : bool) (grad_op : Grad.t)
    (x_init : ndarray) : option ndarray :=
  if guard_first synthesis_init grad_op
  then (λ l, Linear.op l x_init) <$> Grad.linear_op grad_op
  else None.

Definition x_init_of (synthesis_init : bool) (grad_op : Grad.t)
    (linear_op : Linear.t) (x_init : ndarray) : ndarray :=
  if guard_second synthesis_init grad_op
  then Linear.adj_op linear_op x_init
  else x_init.

(** ** Sample objects *)

Module Sample.
Definition fourier : Fourier.t :=
  {| Fourier.n_coils := 1; Fourier.shape := [2; 1; 3]%N |}.

(** Two operators that only relabel the array, so that their use can
    be seen in a result. *)
Definition linear : Linear.t :=
  {| Linear.op := λ a, NdArray "coefficients" (nd_shape a) (nd_data a);
     Linear.adj_op := λ a, NdArray "image" (nd_shape a) (nd_data a) |}.

Definition grad_synthesis : Grad.t :=
  {| Grad.fourier_op := fourier;
     Grad.linear_op := Some linear;
     Grad.inv_spec_rad := 0.5 |}.

Definition grad_analysis : Grad.t :=
  {| Grad.fourier_op := fourier;
     Grad.linear_op := None;
     Grad.inv_spec_rad := 0.25 |}.

Definition prox : Prox.t := {| Prox.tag := 7 |}.

Definition image : ndarray :=
  NdArray "complex64" [2]%N [(1%float, 0%float); (0%float, 1%float)].

(** A caller holding [opt_kwargs] at 1, [metric_kwargs] at 2 and an
    empty dictionary at 3. *)
Definition caller : store :=
  {| module_OPTIMIZERS := OPTIMIZERS;
     heap := <[1%positive := {[ "sigma_bar" := VFloat 0.5;
                                "verbose" := VBool true ]}]>
               (<[2%positive := {[ "metric_fps" := VFloat 1.0 ]}]>
                  (<[3%positive := ∅]> ∅)) |}.

(** The same two dictionaries, in a store that differs in the module
    table and holds a third dictionary. *)
Definition caller_elsewhere : store :=
  {| module_OPTIMIZERS := ∅;
     heap := <[1%positive := {[ "sigma_bar" := VFloat 0.5;
                                "verbose" := VBool true ]}]>
               (<[2%positive := {[ "metric_fps" := VFloat 1.0 ]}]>
                  (<[5%positive := {[ "verbose" := VBool false ]}]> ∅)) |}.

(** Both dictionaries carry the keyword [verbose]. *)
Definition clashing : store :=
  {| module_OPTIMIZERS := OPTIMIZERS;
     heap := <[1%positive := {[ "verbose" := VBool true ]}]>
               (<[2%positive := {[ "verbose" := VBool false ]}]> ∅) |}.

(** [opt_kwargs] names the array argument [x] of the optimizer. *)
Definition shadowing : store :=
  {| module_OPTIMIZERS := OPTIMIZERS;
     heap := <[1%positive := {[ "x" := VArray image ]}]> ∅ |}.

(** One dictionary, to be passed for both arguments. *)
Definition shared : store :=
  {| module_OPTIMIZERS := OPTIMIZERS;
     heap := <[1%positive := {[ "sigma_bar" := VFloat 0.5 ]}]> ∅ |}.
End Sample.

(** ** Further scenarios *)

Module Scenario.
(** [opt_kwargs] at 1 sets [lambda_param] and [verbose]; [metric_kwargs]
    at 2 sets [verbose] once more. *)
Definition verbose_twice : store :=
  {| module_OPTIMIZERS := OPTIMIZERS;
     heap := <[1%positive := {[ "lambda_param" := VFloat 2.0;
                                "verbose" := VBool true ]}]>
               (<[2%positive := {[ "verbose" := VBool false ]}]> ∅) |}.

(** One dictionary holding nothing but keys that [pogm] pops. *)
Definition only_popped : store :=
  {| module_OPTIMIZERS := OPTIMIZERS;
     heap := <[1%positive := {[ "sigma_bar" := VFloat 0.5;
                                "auto_iterate" := VBool true ]}]> ∅ |}.
End Scenario.

(** * Properties *)

(** ** The primitives *)

Lemma bind_returns {A B : Type} (m : M A) (k : A → M B) s s' a :
  m s = (s', Returns a) → (m ≫= k) s = k a s'.
Proof. intros Hm. unfold mbind, M_bind. by rewrite Hm. Qed.

Lemma bind_raises {A B : Type} (m : M A) (k : A → M B) s s' e :
  m s = (s', Raises e) → (m ≫= k) s = (s', Raises e).
Proof. intros Hm. unfold mbind, M_bind. by rewrite Hm. Qed.

Lemma call_run c explicit unpacked s :
  call c explicit unpacked s = (s, construct c explicit unpacked).
Proof. unfold call, construct. by destruct (merge_keywords _ _). Qed.

Lemma dict_at_lookup s l d : heap s !! l = Some d → dict_at s l = d.
Proof. unfold dict_at. by intros ->. Qed.

Lemma dict_at_unallocated s l : heap s !! l = None → dict_at s l = ∅.
Proof. unfold dict_at. by intros ->. Qed.

Lemma dict_at_nonempty_allocated s l : dict_at s l ≠ ∅ → is_Some (heap s !! l).
Proof.
  unfold dict_at. destruct (heap s !! l) eqn:E; [eauto | done].
Qed.

Lemma steps_refl s : steps untouched s s.
Proof. by constructor. Qed.

Lemma steps_trans f g s1 s2 s3 :
  steps f s1 s2 → steps g s2 s3 → steps (λ l d, g l (f l d)) s1 s3.
Proof.
  intros [T1 A1 D1] [T2 A2 D2]. constructor.
  - by rewrite T2.
  - auto.
  - intros l. by rewrite D2, D1.
Qed.

Lemma steps_ext f g s s' :
  (∀ l, f l (dict_at s l) = g l (dict_at s l)) → steps f s s' → steps g s s'.
Proof.
  intros E [T A D]. constructor; [done | done |].
  intros l. by rewrite D.
Qed.

Lemma steps_heap f s s' l d :
  steps f s s' → heap s !! l = Some d → heap s' !! l = Some (f l d).
Proof.
  intros [_ A D] Hl.
  destruct (A l) as [d' Hd']; [eauto |].
  rewrite Hd'. f_equal.
  by rewrite <- (dict_at_lookup _ _ _ Hd'), D, (dict_at_lookup _ _ _ Hl).
Qed.

Lemma new_dict_run s :
  ∃ s' l, new_dict s = (s', Returns l) ∧ steps untouched s s' ∧
          heap s !! l = None ∧ heap s' !! l = Some ∅.
Proof.
  eexists _, _. split; [reflexivity |].
  assert (heap s !! fresh (dom (heap s)) = None) as Hfresh.
  { apply not_elem_of_dom, is_fresh. }
  split; [| split; [done | simpl; by rewrite lookup_insert_eq]].
  constructor; simpl; [done | |].
  - intros l Hl. rewrite lookup_insert_ne; [done |].
    intros <-. rewrite Hfresh in Hl. by destruct Hl.
  - intros l. unfold dict_at, untouched. simpl.
    destruct (decide (fresh (dom (heap s)) = l)) as [<- | Hne].
    + by rewrite lookup_insert_eq, Hfresh.
    + by rewrite lookup_insert_ne.
Qed.

(** [a or dict()] yields a reference to the dictionary [a] stands for;
    it is [a] itself unless that dictionary is empty, and then it is new. *)
Lemma or_dict_run a s :
  ∃ s' l, or_dict a s = (s', Returns l) ∧ steps untouched s s' ∧
          dict_at s' l = kwargs_of s a ∧
          is_Some (heap s' !! l) ∧
          ((a = Some l ∧ s' = s ∧ dict_at s l ≠ ∅) ∨
           (heap s !! l = None ∧ kwargs_of s a = ∅)).
Proof.
  destruct (new_dict_run s) as (s' & l & Hrun & Hsteps & Hnone & Hsome).
  destruct a as [l0 |]; simpl.
  - unfold mbind, M_bind, deref.
    destruct (decide (dict_at s l0 = ∅)) as [Hempty | Hfull].
    + exists s', l. split; [done |]. split; [done |].
      split; [by rewrite (dict_at_lookup _ _ _ Hsome) |].
      split; [eauto |]. by right.
    + exists s, l0. split; [done |]. split; [apply steps_refl |].
      split; [done |]. split; [by apply dict_at_nonempty_allocated |].
      by left.
  - exists s', l. split; [done |]. split; [done |].
    split; [by rewrite (dict_at_lookup _ _ _ Hsome) |].
    split; [eauto |]. by right.
Qed.

Lemma dict_pop_run l key dflt s :
  ∃ s', dict_pop l key dflt s
          = (s', Returns (default dflt (dict_at s l !! key))) ∧
        steps (popping l key) s s'.
Proof.
  unfold dict_pop. destruct (dict_at s l !! key) as [v |] eqn:Hkey.
  - eexists. split; [reflexivity |]. constructor; simpl; [done | |].
    + intros l' Hl'. destruct (decide (l = l')) as [<- | Hne].
      * rewrite lookup_insert_eq. eauto.
      * by rewrite lookup_insert_ne.
    + intros l'. unfold popping, dict_at at 1. simpl.
      destruct (decide (l' = l)) as [-> | Hne].
      * by rewrite lookup_insert_eq.
      * by rewrite lookup_insert_ne.
  - exists s. split; [reflexivity |]. constructor; [done | done |].
    intros l'. unfold popping. case_decide; [subst |done].
    by rewrite delete_id.
Qed.

(** ** The second half of [initialize_opt] *)

Lemma remaining_empty opt_name : remaining opt_name ∅ = ∅.
Proof.
  unfold remaining, popped_keys.
  repeat case_decide; simpl; by rewrite ?delete_empty.
Qed.

Lemma remaining_other opt_name d :
  opt_name ≠ Some "pogm" → opt_name ≠ Some "fista" → remaining opt_name d = d.
Proof. intros. unfold remaining, popped_keys. by repeat case_decide. Qed.

(** The two references made by lines 69 and 70. *)
Lemma or_dict_twice opt_kwargs metric_kwargs s :
  ∃ s1 lo s2 lm,
    or_dict opt_kwargs s = (s1, Returns lo) ∧
    or_dict metric_kwargs s1 = (s2, Returns lm) ∧
    steps untouched s s2 ∧
    dict_at s2 lo = kwargs_of s opt_kwargs ∧
    dict_at s2 lm = kwargs_of s metric_kwargs ∧
    (lo = lm → opt_kwargs = metric_kwargs) ∧
    (opt_kwargs = metric_kwargs → lo = lm ∨ kwargs_of s opt_kwargs = ∅) ∧
    (opt_kwargs = Some lo ∨ kwargs_of s opt_kwargs = ∅) ∧
    (∀ l, opt_kwargs = Some l → l = lo ∨ kwargs_of s opt_kwargs = ∅).
Proof.
  destruct (or_dict_run opt_kwargs s)
    as (s1 & lo & Hrun1 & Hst1 & Hd1 & Hlive1 & Horig1).
  destruct (or_dict_run metric_kwargs s1)
    as (s2 & lm & Hrun2 & Hst2 & Hd2 & Hlive2 & Horig2).
  assert (∀ a, kwargs_of s1 a = kwargs_of s a) as Hkw.
  { intros [l |]; simpl; [apply (steps_dict _ _ _ Hst1) | done]. }
  exists s1, lo, s2, lm. split; [done |]. split; [done |].
  split. { exact (steps_trans _ _ _ _ _ Hst1 Hst2). }
  split. { by rewrite (steps_dict _ _ _ Hst2). }
  split. { by rewrite Hd2. }
  split; [| split; [| split]].
  - intros <-. destruct Horig1 as [(-> & _ & _) | (Hfresh & Hempty)].
    + destruct Horig2 as [(-> & _ & _) | (Hfresh2 & _)]; [done |].
      rewrite Hfresh2 in Hlive1. by destruct Hlive1.
    + destruct Horig2 as [(_ & _ & Hfull) | (Hfresh2 & _)].
      * by rewrite Hd1 in Hfull.
      * rewrite Hfresh2 in Hlive1. by destruct Hlive1.
  - intros <-. destruct Horig1 as [(-> & -> & Hfull) | (_ & Hempty)]; [| by right].
    left. destruct Horig2 as [(Heq & _ & _) | (_ & Hempty)]; [congruence |].
    simpl in Hempty. done.
  - destruct Horig1 as [(-> & _ & _) | (_ & Hempty)]; [by left | by right].
  - intros l ->. destruct Horig1 as [(Heq & _ & _) | (_ & Hempty)];
      [left; congruence | by right].
Qed.

(** Two pops in a row on the same dictionary. *)
Lemma pop_twice l k1 d1 k2 d2 s :
  k1 ≠ k2 →
  ∃ s1 s2,
    dict_pop l k1 d1 s = (s1, Returns (default d1 (dict_at s l !! k1))) ∧
    dict_pop l k2 d2 s1 = (s2, Returns (default d2 (dict_at s l !! k2))) ∧
    steps (λ l' d, if decide (l' = l) then delete k2 (delete k1 d) else d) s s2.
Proof.
  intros Hne.
  destruct (dict_pop_run l k1 d1 s) as (s1 & Hrun1 & Hst1).
  destruct (dict_pop_run l k2 d2 s1) as (s2 & Hrun2 & Hst2).
  exists s1, s2. split; [done |]. split.
  - rewrite Hrun2. do 3 f_equal. rewrite (steps_dict _ _ _ Hst1).
    unfold popping. rewrite decide_True by done. by rewrite lookup_delete_ne.
  - eapply steps_ext; [| exact (steps_trans _ _ _ _ _ Hst1 Hst2)].
    intros l'. unfold popping. by case_decide.
Qed.

Lemma dispatch_run opt_name grad_op linear_op prox_op alpha_init x_init
    opt_kwargs metric_kwargs s :
  ∃ s',
    dispatch opt_name grad_op linear_op prox_op alpha_init x_init
      opt_kwargs metric_kwargs s
    = (s', outcome_of_dispatch opt_name grad_op linear_op prox_op
             alpha_init x_init (kwargs_of s opt_kwargs)
             (unpacked_opt opt_name s opt_kwargs)
             (unpacked_metric opt_name s opt_kwargs metric_kwargs)) ∧
    steps (effect_on opt_name alpha_init opt_kwargs) s s'.
Proof.
  destruct (or_dict_twice opt_kwargs metric_kwargs s)
    as (s1 & lo & s2 & lm & Hrun1 & Hrun2 & Hst & Hlo & Hlm
        & Hsame1 & Hsame2 & Harg1 & Harg2).
  assert (dict_at s lo = kwargs_of s opt_kwargs) as Hlo0.
  { by rewrite <- Hlo, (steps_dict _ _ _ Hst). }
  (* the pops, seen from the caller *)
  assert (∀ k1 k2 l,
    opt_name = Some "pogm" ∧ k1 = "sigma_bar" ∧ k2 = "auto_iterate" ∨
    opt_name = Some "fista" ∧ k1 = "lambda_param" ∧ k2 = "auto_iterate" →
    (if decide (l = lo) then delete k2 (delete k1 (dict_at s l)) else dict_at s l)
    = if decide (opt_kwargs = Some l) then remaining opt_name (dict_at s l)
      else dict_at s l) as Heffect.
  { intros k1 k2 l Hk.
    assert (remaining opt_name (dict_at s l) = delete k2 (delete k1 (dict_at s l)))
      as -> by (by destruct Hk as [(-> & -> & ->) | (-> & -> & ->)]).
    destruct (decide (l = lo)) as [-> | Hne].
    - case_decide; [done |]. destruct Harg1 as [? | Hempty]; [done |].
      by rewrite Hlo0, Hempty, !delete_empty.
    - case_decide as Harg; [| done].
      destruct (Harg2 _ Harg) as [? | Hempty]; [done |].
      rewrite Harg in Hempty. simpl in Hempty. by rewrite Hempty, !delete_empty. }
  assert (∀ k1 k2,
    opt_name = Some "pogm" ∧ k1 = "sigma_bar" ∧ k2 = "auto_iterate" ∨
    opt_name = Some "fista" ∧ k1 = "lambda_param" ∧ k2 = "auto_iterate" →
    (if decide (lm = lo) then delete k2 (delete k1 (dict_at s2 lm)) else dict_at s2 lm)
    = unpacked_metric opt_name s opt_kwargs metric_kwargs) as Hmetric.
  { intros k1 k2 Hk. unfold unpacked_metric.
    assert (∀ d, remaining opt_name d = delete k2 (delete k1 d))
      as -> by (by destruct Hk as [(-> & -> & ->) | (-> & -> & ->)]).
    destruct (decide (lm = lo)) as [-> | Hne].
    - rewrite decide_True by auto. by rewrite Hlo.
    - case_decide as Heq; [| done].
      destruct (Hsame2 Heq) as [? | Hempty]; [done |].
      rewrite Hlm, <- Heq, Hempty. by rewrite !delete_empty. }
  unfold dispatch.
  rewrite (bind_returns _ _ _ _ _ Hrun1), (bind_returns _ _ _ _ _ Hrun2).
  unfold outcome_of_dispatch.
  destruct (decide (opt_name = Some "pogm")) as [Hpogm | Hpogm].
  { destruct alpha_init as [a |].
    - destruct (pop_twice lo "sigma_bar" (VFloat 0.96)
                  "auto_iterate" (VBool false) s2)
        as (s3 & s4 & Hp1 & Hp2 & Hst4); [done |].
      exists s4. split.
      + unfold read_local, mbind at 1 2 3 4, M_bind, mret, M_ret.
        rewrite (bind_returns _ _ _ _ _ Hp1), (bind_returns _ _ _ _ _ Hp2).
        unfold deref, mbind, M_bind. rewrite call_run.
        rewrite !(steps_dict _ _ _ Hst4), decide_True by done.
        rewrite Hlo, (Hmetric "sigma_bar" "auto_iterate") by auto.
        unfold unpacked_opt. by rewrite Hpogm.
      + eapply steps_ext; [| exact (steps_trans _ _ _ _ _ Hst Hst4)].
        intros l. unfold untouched, effect_on, runs_pops.
        rewrite (decide_True _ _ Hpogm). simpl.
        apply Heffect. auto.
    - exists s2. split; [done |].
      eapply steps_ext; [| exact Hst].
      intros l. unfold untouched, effect_on, runs_pops.
      rewrite (decide_True _ _ Hpogm). simpl. by destruct (decide (opt_kwargs = Some l)). }
  destruct (decide (opt_name = Some "fista")) as [Hfista | Hfista].
  { destruct (pop_twice lo "lambda_param" (VFloat 1.0)
                "auto_iterate" (VBool false) s2)
      as (s3 & s4 & Hp1 & Hp2 & Hst4); [done |].
    exists s4. split.
    - rewrite (bind_returns _ _ _ _ _ Hp1), (bind_returns _ _ _ _ _ Hp2).
      unfold deref, mbind, M_bind. rewrite call_run.
      rewrite !(steps_dict _ _ _ Hst4), decide_True by done.
      rewrite Hlo, (Hmetric "lambda_param" "auto_iterate") by auto.
      unfold unpacked_opt. by rewrite Hfista.
    - eapply steps_ext; [| exact (steps_trans _ _ _ _ _ Hst Hst4)].
      intros l. unfold untouched, effect_on, runs_pops.
      rewrite (decide_False _ _ Hpogm).
      apply Heffect. auto. }
  assert (unpacked_opt opt_name s opt_kwargs = dict_at s2 lo) as Hrest.
  { unfold unpacked_opt. by rewrite remaining_other, Hlo. }
  assert (unpacked_metric opt_name s opt_kwargs metric_kwargs = dict_at s2 lm)
    as Hrestm.
  { unfold unpacked_metric. rewrite remaining_other, Hlm by done.
    by destruct (decide (opt_kwargs = metric_kwargs)) as [-> |]. }
  assert (steps (effect_on opt_name alpha_init opt_kwargs) s s2) as Hst'.
  { eapply steps_ext; [| exact Hst].
    intros l. unfold untouched, effect_on, runs_pops.
    rewrite (decide_False _ _ Hpogm), remaining_other by done.
    by destruct (decide (opt_kwargs = Some l)). }
  exists s2. split; [| done].
  destruct (decide (opt_name = Some "condat-vu")); [| done].
  unfold deref, mbind, M_bind. by rewrite call_run, Hrest, Hrestm.
Qed.

(** ** Keywords of a call *)

Lemma merge_two (E d1 d2 : dict) :
  merge_keywords E [d1; d2]
  = if decide (E ##ₘ d1 ∧ E ∪ d1 ##ₘ d2) then Some (E ∪ d1 ∪ d2) else None.
Proof.
  simpl. destruct (decide (E ##ₘ d1)) as [H1 | H1].
  - destruct (decide (E ∪ d1 ##ₘ d2)) as [H2 | H2].
    + by rewrite decide_True.
    + rewrite decide_False; [done | by intros [_ ?]].
  - rewrite decide_False; [done | by intros [? _]].
Qed.

Lemma disjoint_from_explicit (ex : list (string * pyval)) (d : dict) :
  list_to_map ex ##ₘ d ↔ ∀ k, k ∈ ex.*1 → d !! k = None.
Proof.
  rewrite map_disjoint_alt. split.
  - intros H k Hk. destruct (H k) as [Hnone | Hnone]; [| done].
    by apply not_elem_of_list_to_map in Hnone.
  - intros H k. destruct (decide (k ∈ ex.*1)) as [Hin | Hout].
    + right. auto.
    + left. by apply not_elem_of_list_to_map.
Qed.

Lemma distinct_keywords (ex : list (string * pyval)) (d1 d2 : dict) :
  list_to_map ex ##ₘ d1 ∧ list_to_map ex ∪ d1 ##ₘ d2 ↔
  (∀ k, k ∈ ex.*1 → d1 !! k = None ∧ d2 !! k = None) ∧ d1 ##ₘ d2.
Proof.
  rewrite map_disjoint_union_l, !disjoint_from_explicit. split.
  - intros (H1 & H2 & H12). split; [| done]. intros k Hk. split; auto.
  - intros (H & H12). split; [| split; [| done]]; intros k Hk; by apply H.
Qed.

Lemma construct_distinct c ex d1 d2 :
  (∀ k, k ∈ ex.*1 → d1 !! k = None ∧ d2 !! k = None) → d1 ##ₘ d2 →
  construct c ex [d1; d2]
  = Returns {| cls := c; init_kwargs := list_to_map ex ∪ d1 ∪ d2 |}.
Proof.
  intros H H12. unfold construct. rewrite merge_two, decide_True; [done |].
  by apply distinct_keywords.
Qed.

Lemma construct_clash c ex d1 d2 :
  ¬ ((∀ k, k ∈ ex.*1 → d1 !! k = None ∧ d2 !! k = None) ∧ d1 ##ₘ d2) →
  construct c ex [d1; d2] = Raises TypeError_multiple_values.
Proof.
  intros H. unfold construct. rewrite merge_two, decide_False; [done |].
  by rewrite distinct_keywords.
Qed.

Lemma construct_returns c ex d1 d2 o :
  construct c ex [d1; d2] = Returns o →
  o = {| cls := c; init_kwargs := list_to_map ex ∪ d1 ∪ d2 |} ∧
  list_to_map ex ##ₘ d1 ∧ list_to_map ex ∪ d1 ##ₘ d2.
Proof.
  unfold construct. rewrite merge_two. case_decide; [| done].
  intros [= <-]. by split.
Qed.

(** ** The first half of [initialize_opt] *)

Lemma initial_values_run grad_op linear_op synthesis_init x_init s :
  initial_values grad_op linear_op synthesis_init x_init s
  = (s, Returns (alpha_init_of synthesis_init grad_op x_init,
                 x_init_of synthesis_init grad_op linear_op x_init)).
Proof.
  unfold initial_values, alpha_init_of, x_init_of, guard_first, guard_second,
    guard_third, hasattr_linear_op, getattr_linear_op.
  by destruct synthesis_init, (Grad.linear_op grad_op).
Qed.

Lemma initial_values_without_third_run grad_op linear_op synthesis_init x_init s :
  initial_values_without_third grad_op linear_op synthesis_init x_init s
  = (s, Returns (alpha_init_of synthesis_init grad_op x_init,
                 x_init_of synthesis_init grad_op linear_op x_init)).
Proof.
  unfold initial_values_without_third, alpha_init_of, x_init_of, guard_first,
    guard_second, hasattr_linear_op, getattr_linear_op.
  by destruct synthesis_init, (Grad.linear_op grad_op).
Qed.

Lemma alpha_init_bound synthesis_init grad_op x_init :
  is_Some (alpha_init_of synthesis_init grad_op x_init)
  ↔ guard_first synthesis_init grad_op = true.
Proof.
  unfold alpha_init_of, guard_first, hasattr_linear_op.
  destruct synthesis_init, (Grad.linear_op grad_op); simpl;
    split; (done || by intros [? ?] || eauto).
Qed.

(** ** The whole of [initialize_opt] *)

Lemma initialize_opt_run opt_name grad_op linear_op prox_op x_init
    synthesis_init opt_kwargs metric_kwargs s :
  let x0 := default_x_init grad_op x_init in
  let alpha := alpha_init_of synthesis_init grad_op x0 in
  ∃ s',
    initialize_opt opt_name grad_op linear_op prox_op x_init synthesis_init
      opt_kwargs metric_kwargs s
    = (s', outcome_of_dispatch opt_name grad_op linear_op prox_op alpha
             (x_init_of synthesis_init grad_op linear_op x0)
             (kwargs_of s opt_kwargs)
             (unpacked_opt opt_name s opt_kwargs)
             (unpacked_metric opt_name s opt_kwargs metric_kwargs)) ∧
    steps (effect_on opt_name alpha opt_kwargs) s s'.
Proof.
  intros x0 alpha. unfold initialize_opt. fold x0.
  rewrite (bind_returns _ _ _ _ _ (initial_values_run _ _ _ _ _)).
  apply dispatch_run.
Qed.

(** For a name that is implemented, and with [alpha_init] assigned when
    the name is [pogm], the outcome is that of one constructor call. *)
Lemma outcome_is_call opt_name grad_op linear_op prox_op alpha_init x_init
    opt_kw opt_rest metric_kw :
  is_Some (class_of opt_name) →
  (opt_name = Some "pogm" → is_Some alpha_init) →
  ∃ c (ex : list (string * pyval)),
    class_of opt_name = Some c ∧
    ex.*1 = explicit_keywords opt_name ∧
    outcome_of_dispatch opt_name grad_op linear_op prox_op alpha_init x_init
      opt_kw opt_rest metric_kw
    = construct c ex [opt_rest; metric_kw] ∧
    (opt_name = Some "pogm" ∨ opt_name = Some "fista" →
     (list_to_map ex : dict) !! "beta_param"
     = Some (VFloat (Grad.inv_spec_rad grad_op))) ∧
    (opt_name = Some "pogm" →
     (list_to_map ex : dict) !! "sigma_bar"
     = Some (default (VFloat 0.96) (opt_kw !! "sigma_bar")) ∧
     (list_to_map ex : dict) !! "auto_iterate"
     = Some (default (VBool false) (opt_kw !! "auto_iterate"))) ∧
    (opt_name = Some "fista" →
     (list_to_map ex : dict) !! "lambda_param"
     = Some (default (VFloat 1.0) (opt_kw !! "lambda_param")) ∧
     (list_to_map ex : dict) !! "auto_iterate"
     = Some (default (VBool false) (opt_kw !! "auto_iterate"))).
Proof.
  intros Hvalid Hbound.
  unfold outcome_of_dispatch, class_of, explicit_keywords in *.
  destruct (decide (opt_name = Some "pogm")) as [-> | Hpogm].
  { destruct Hbound as [a ->]; [done |].
    eexists _, _. split_and!; try reflexivity; try done. }
  destruct (decide (opt_name = Some "fista")) as [-> | Hfista].
  { eexists _, _. split_and!; try reflexivity; try done. }
  destruct (decide (opt_name = Some "condat-vu")) as [-> | Hcondat].
  { eexists _, _. split_and!; try reflexivity; try done.
    by intros [? | ?]. }
  by destruct Hvalid.
Qed.

Lemma outcome_returns_implemented opt_name grad_op linear_op prox_op
    alpha_init x_init opt_kw opt_rest metric_kw o :
  outcome_of_dispatch opt_name grad_op linear_op prox_op alpha_init x_init
    opt_kw opt_rest metric_kw = Returns o →
  is_Some (class_of opt_name) ∧ (opt_name = Some "pogm" → is_Some alpha_init).
Proof.
  unfold outcome_of_dispatch, class_of.
  repeat case_decide; try destruct alpha_init; try done; eauto.
Qed.

Lemma keywords_distinct_spec opt_name s opt_kwargs metric_kwargs
    (ex : list (string * pyval)) :
  ex.*1 = explicit_keywords opt_name →
  keywords_distinct opt_name s opt_kwargs metric_kwargs ↔
  (∀ k, k ∈ ex.*1 →
        unpacked_opt opt_name s opt_kwargs !! k = None ∧
        unpacked_metric opt_name s opt_kwargs metric_kwargs !! k = None) ∧
  unpacked_opt opt_name s opt_kwargs
    ##ₘ unpacked_metric opt_name s opt_kwargs metric_kwargs.
Proof. intros ->. unfold keywords_distinct. by rewrite Forall_forall. Qed.

(** What a call that returns has gone through: one constructor call,
    whose keywords are the ones written out, [ex], and the two unpacked
    dictionaries, none of them given twice. *)
Lemma initialize_opt_returns opt_name grad_op linear_op prox_op x_init
    synthesis_init opt_kwargs metric_kwargs s s' o :
  initialize_opt opt_name grad_op linear_op prox_op x_init synthesis_init
    opt_kwargs metric_kwargs s = (s', Returns o) →
  ∃ ex : list (string * pyval),
    class_of opt_name = Some (cls o) ∧
    init_kwargs o
    = list_to_map ex ∪ unpacked_opt opt_name s opt_kwargs
        ∪ unpacked_metric opt_name s opt_kwargs metric_kwargs ∧
    list_to_map ex ##ₘ unpacked_opt opt_name s opt_kwargs ∧
    list_to_map ex ∪ unpacked_opt opt_name s opt_kwargs
      ##ₘ unpacked_metric opt_name s opt_kwargs metric_kwargs ∧
    (opt_name = Some "pogm" ∨ opt_name = Some "fista" →
     (list_to_map ex : dict) !! "beta_param"
     = Some (VFloat (Grad.inv_spec_rad grad_op))) ∧
    (opt_name = Some "pogm" →
     (list_to_map ex : dict) !! "sigma_bar"
     = Some (default (VFloat 0.96) (kwargs_of s opt_kwargs !! "sigma_bar")) ∧
     (list_to_map ex : dict) !! "auto_iterate"
     = Some (default (VBool false)
               (kwargs_of s opt_kwargs !! "auto_iterate"))) ∧
    (opt_name = Some "fista" →
     (list_to_map ex : dict) !! "lambda_param"
     = Some (default (VFloat 1.0)
               (kwargs_of s opt_kwargs !! "lambda_param")) ∧
     (list_to_map ex : dict) !! "auto_iterate"
     = Some (default (VBool false)
               (kwargs_of s opt_kwargs !! "auto_iterate"))).
Proof.
  intros Hrun.
  destruct (initialize_opt_run opt_name grad_op linear_op prox_op x_init
              synthesis_init opt_kwargs metric_kwargs s) as (s1 & Hrun1 & _).
  rewrite Hrun1 in Hrun. injection Hrun as _ Ho.
  destruct (outcome_returns_implemented _ _ _ _ _ _ _ _ _ _ Ho)
    as [Hvalid Hbound].
  destruct (outcome_is_call opt_name grad_op linear_op prox_op _
              (x_init_of synthesis_init grad_op linear_op
                 (default_x_init grad_op x_init))
              (kwargs_of s opt_kwargs)
              (unpacked_opt opt_name s opt_kwargs)
              (unpacked_metric opt_name s opt_kwargs metric_kwargs)
              Hvalid Hbound)
    as (c & ex & Hc & _ & Hcall & Hbeta & Hpogm & Hfista).
  rewrite Hcall in Ho. apply construct_returns in Ho as (-> & Hd1 & Hd2).
  by exists ex.
Qed.

(** ** Lookups after the pops *)

Lemma lookup_delete_two (d : dict) k1 k2 k :
  delete k2 (delete k1 d) !! k = if decide (k ∈ [k1; k2]) then None else d !! k.
Proof.
  destruct (decide (k ∈ [k1; k2])) as [Hin | Hout].
  - apply elem_of_cons in Hin as [-> | Hin].
    + destruct (decide (k2 = k1)) as [-> | Hne];
        [by rewrite lookup_delete_eq |].
      by rewrite lookup_delete_ne, lookup_delete_eq.
    + apply list_elem_of_singleton in Hin as ->. by rewrite lookup_delete_eq.
  - rewrite !lookup_delete_ne; [done | |]; intros <-; apply Hout.
    + apply elem_of_cons. by left.
    + apply elem_of_cons. right. by apply list_elem_of_singleton.
Qed.

Lemma remaining_lookup opt_name (d : dict) k :
  remaining opt_name d !! k
  = if decide (k ∈ popped_keys opt_name) then None else d !! k.
Proof.
  unfold remaining, popped_keys.
  destruct (decide (opt_name = Some "pogm")) as [? | ?];
    [| destruct (decide (opt_name = Some "fista")) as [? | ?]].
  - apply lookup_delete_two.
  - apply lookup_delete_two.
  - destruct (decide (k ∈ [])) as [Hin | _]; [| done].
    by apply elem_of_nil in Hin.
Qed.



(** ** Keywords of a returned instance *)

(** The keywords of a returned instance, branch by branch. *)
Lemma returned_keywords opt_name grad_op linear_op prox_op x_init
    synthesis_init opt_kwargs metric_kwargs s s' o :
  initialize_opt opt_name grad_op linear_op prox_op x_init synthesis_init
    opt_kwargs metric_kwargs s = (s', Returns o) →
  let x0 := default_x_init grad_op x_init in
  let x1 := x_init_of synthesis_init grad_op linear_op x0 in
  let opt_kw := kwargs_of s opt_kwargs in
  ∃ ex : list (string * pyval),
    ex.*1 = explicit_keywords opt_name ∧
    init_kwargs o
    = list_to_map ex ∪ unpacked_opt opt_name s opt_kwargs
        ∪ unpacked_metric opt_name s opt_kwargs metric_kwargs ∧
    (opt_name = Some "pogm" →
     ∃ a, alpha_init_of synthesis_init grad_op x0 = Some a ∧
       ex = [("u", VArray a); ("x", VArray a); ("y", VArray a);
             ("z", VArray a); ("grad", VGrad grad_op);
             ("prox", VProx prox_op); ("linear", VLinear linear_op);
             ("beta_param", VFloat (Grad.inv_spec_rad grad_op));
             ("sigma_bar", default (VFloat 0.96) (opt_kw !! "sigma_bar"));
             ("auto_iterate",
              default (VBool false) (opt_kw !! "auto_iterate"))]) ∧
    (opt_name = Some "fista" →
     ex = [("x", VArray x1); ("grad", VGrad grad_op);
           ("prox", VProx prox_op); ("linear", VLinear linear_op);
           ("beta_param", VFloat (Grad.inv_spec_rad grad_op));
           ("lambda_param", default (VFloat 1.0) (opt_kw !! "lambda_param"));
           ("auto_iterate",
            default (VBool false) (opt_kw !! "auto_iterate"))]) ∧
    (opt_name = Some "condat-vu" →
     ex = [("x", VArray x1); ("y", VArray (Linear.op linear_op x1));
           ("grad", VGrad grad_op); ("prox", VIdentity);
           ("prox_dual", VProx prox_op); ("linear", VLinear linear_op)]).
Proof.
  intros Hrun x0 x1 opt_kw.
  destruct (initialize_opt_run opt_name grad_op linear_op prox_op x_init
              synthesis_init opt_kwargs metric_kwargs s) as (s1 & Hrun1 & _).
  rewrite Hrun1 in Hrun. injection Hrun as _ Ho.
  fold x0 x1 opt_kw in Ho.
  unfold outcome_of_dispatch, explicit_keywords in *.
  destruct (decide (opt_name = Some "pogm")) as [-> | Hpogm].
  { destruct (alpha_init_of synthesis_init grad_op x0) as [a |]; [| done].
    apply construct_returns in Ho as (-> & _ & _).
    eexists. split_and!; [| reflexivity | | |]; [done | | done | done].
    intros _. by exists a. }
  destruct (decide (opt_name = Some "fista")) as [-> | Hfista].
  { apply construct_returns in Ho as (-> & _ & _).
    eexists. split_and!; [| reflexivity | | |]; done. }
  destruct (decide (opt_name = Some "condat-vu")) as [-> | Hcondat]; [| done].
  apply construct_returns in Ho as (-> & _ & _).
  eexists. split_and!; [| reflexivity | | |]; done.
Qed.

(** A keyword the call writes out reaches the instance with the value
    written. *)
Lemma explicit_keyword_reaches (written d1 d2 : dict) k v :
  written !! k = Some v → (written ∪ d1 ∪ d2) !! k = Some v.
Proof. intros Hk. by apply lookup_union_Some_l, lookup_union_Some_l. Qed.

(** A name that is implemented, [alpha_init] assigned where [pogm]
    needs it, and no keyword twice: the call returns. *)
Lemma distinct_call_returns opt_name grad_op linear_op prox_op x_init
    synthesis_init opt_kwargs metric_kwargs s :
  opt_name = Some "fista" ∨ opt_name = Some "condat-vu" ∨
  opt_name = Some "pogm" ∧ guard_first synthesis_init grad_op = true →
  keywords_distinct opt_name s opt_kwargs metric_kwargs →
  ∃ s' o,
    initialize_opt opt_name grad_op linear_op prox_op x_init synthesis_init
      opt_kwargs metric_kwargs s = (s', Returns o).
Proof.
  intros Hname Hdistinct.
  destruct (initialize_opt_run opt_name grad_op linear_op prox_op x_init
              synthesis_init opt_kwargs metric_kwargs s) as (s' & -> & _).
  cbv zeta.
  edestruct outcome_is_call as (c & ex & _ & Hex & -> & _).
  { destruct Hname as [-> | [-> | [-> _]]]; by eexists. }
  { intros Hpogm. apply alpha_init_bound.
    destruct Hname as [-> | [-> | [_ ?]]]; done. }
  apply (keywords_distinct_spec _ _ _ _ _ Hex) in Hdistinct as [Hexp Hdis].
  eexists _, _. by rewrite construct_distinct.
Qed.

(** * The claims *)

(** ** Failures of [initialize_opt] *)

(** C1, as amended. A name other than the three raises [ValueError]
    with the message of line 116. For [fista] and [condat-vu], and for
    [pogm] when the first guard of line 63 holds, the call returns an
    instance of the class of that name exactly when no keyword reaches
    the constructor twice, and raises [TypeError] otherwise. *)
Theorem initialize_opt_failures opt_name grad_op linear_op prox_op x_init
    synthesis_init opt_kwargs metric_kwargs s :
  let r := (initialize_opt opt_name grad_op linear_op prox_op x_init
              synthesis_init opt_kwargs metric_kwargs s).2 in
  (opt_name ≠ Some "pogm" → opt_name ≠ Some "fista" →
   opt_name ≠ Some "condat-vu" →
   r = Raises (ValueError (not_implemented opt_name))) ∧
  (opt_name = Some "fista" ∨ opt_name = Some "condat-vu" ∨
   opt_name = Some "pogm" ∧ guard_first synthesis_init grad_op = true →
   (keywords_distinct opt_name s opt_kwargs metric_kwargs →
    ∃ o, r = Returns o ∧ class_of opt_name = Some (cls o)) ∧
   (¬ keywords_distinct opt_name s opt_kwargs metric_kwargs →
    r = Raises TypeError_multiple_values)).
Proof.
  destruct (initialize_opt_run opt_name grad_op linear_op prox_op x_init
              synthesis_init opt_kwargs metric_kwargs s) as (s' & -> & _).
  simpl. split.
  - intros Hpogm Hfista Hcondat. unfold outcome_of_dispatch.
    by rewrite !decide_False.
  - intros Hname.
    edestruct outcome_is_call as (c & ex & Hc & Hex & -> & _).
    { destruct Hname as [-> | [-> | [-> _]]]; by eexists. }
    { intros Hpogm. apply alpha_init_bound.
      destruct Hname as [-> | [-> | [_ ?]]]; done. }
    rewrite (keywords_distinct_spec _ _ _ _ _ Hex). split.
    + intros [Hexp Hdis]. eexists. split; [by apply construct_distinct |].
      done.
    + apply construct_clash.
Qed.

(** An unknown name raises [ValueError]; [fista] returns when the
    keywords are distinct and raises [TypeError] when [verbose] comes
    twice. *)
Lemma initialize_opt_failures_witness :
  (initialize_opt (Some "lbfgs") Sample.grad_analysis Sample.linear
     Sample.prox None false (Some 1%positive) (Some 2%positive)
     Sample.caller).2
  = Raises (ValueError "Optimizer lbfgs not implemented") ∧
  (∃ o,
     (initialize_opt (Some "fista") Sample.grad_analysis Sample.linear
        Sample.prox None false (Some 1%positive) (Some 2%positive)
        Sample.caller).2 = Returns o ∧
     class_of (Some "fista") = Some (cls o)) ∧
  (initialize_opt (Some "fista") Sample.grad_analysis Sample.linear
     Sample.prox None false (Some 1%positive) (Some 2%positive)
     Sample.clashing).2
  = Raises TypeError_multiple_values.
Proof.
  split; [| split].
  - apply (initialize_opt_failures (Some "lbfgs")); done.
  - apply (initialize_opt_failures (Some "fista")).
    + by left.
    + apply (bool_decide_unpack _). vm_compute. exact I.
  - apply (initialize_opt_failures (Some "fista")).
    + by left.
    + intros Hdistinct. apply (bool_decide_pack _) in Hdistinct.
      vm_compute in Hdistinct. exact Hdistinct.
Defined.

(** C1, as stated, fails: [fista] is one of the three names, and with
    the keyword [verbose] in both dictionaries the call raises
    [TypeError] where an instance was promised. *)
Lemma initialize_opt_type_error :
  (initialize_opt (Some "fista") Sample.grad_analysis Sample.linear
     Sample.prox None false (Some 1%positive) (Some 2%positive)
     Sample.clashing).2 = Raises TypeError_multiple_values ∧
  ¬ ∃ o,
      (initialize_opt (Some "fista") Sample.grad_analysis Sample.linear
         Sample.prox None false (Some 1%positive) (Some 2%positive)
         Sample.clashing).2 = Returns o.
Proof.
  assert ((initialize_opt (Some "fista") Sample.grad_analysis Sample.linear
             Sample.prox None false (Some 1%positive) (Some 2%positive)
             Sample.clashing).2 = Raises TypeError_multiple_values) as E
    by (vm_compute; reflexivity).
  simpl. rewrite E. split; [done |]. by intros [o ?].
Qed.

(** The slip behind the dead branch of lines 67 and 68: when the guard
    of line 63 fails, nothing assigns [alpha_init], and the [pogm] branch
    stops at line 75 before it pops anything. *)
Lemma pogm_without_alpha_init grad_op linear_op prox_op x_init
    synthesis_init opt_kwargs metric_kwargs s :
  guard_first synthesis_init grad_op = false →
  (initialize_opt (Some "pogm") grad_op linear_op prox_op x_init
     synthesis_init opt_kwargs metric_kwargs s).2
  = Raises (UnboundLocalError "alpha_init").
Proof.
  intros Hguard.
  destruct (initialize_opt_run (Some "pogm") grad_op linear_op prox_op x_init
              synthesis_init opt_kwargs metric_kwargs s) as (s' & -> & _).
  simpl. unfold alpha_init_of. by rewrite Hguard.
Qed.

Example pogm_synthesis_init :
  (initialize_opt (Some "pogm") Sample.grad_synthesis Sample.linear
     Sample.prox (Some Sample.image) true None None module_loaded).2
  = Raises (UnboundLocalError "alpha_init").
Proof. vm_compute. reflexivity. Qed.

(** ** The class a name selects *)

(** C2, as amended. Whatever [initialize_opt] returns is an instance of
    the class its name alone determines: [POGM] for [pogm],
    [ForwardBackward] for [fista], [Condat] for [condat-vu]. It does
    return one whenever no keyword reaches the constructor twice and,
    for [pogm], the first guard of line 63 holds. *)
Theorem initialize_opt_class_by_name opt_name grad_op linear_op prox_op
    x_init synthesis_init opt_kwargs metric_kwargs s :
  let r := (initialize_opt opt_name grad_op linear_op prox_op x_init
              synthesis_init opt_kwargs metric_kwargs s).2 in
  (∀ o, r = Returns o →
        opt_name = Some "pogm" ∧ cls o = POGM ∨
        opt_name = Some "fista" ∧ cls o = ForwardBackward ∨
        opt_name = Some "condat-vu" ∧ cls o = Condat) ∧
  (opt_name = Some "pogm" ∧ guard_first synthesis_init grad_op = true ∨
   opt_name = Some "fista" ∨ opt_name = Some "condat-vu" →
   keywords_distinct opt_name s opt_kwargs metric_kwargs →
   ∃ o, r = Returns o).
Proof.
  destruct (initialize_opt_run opt_name grad_op linear_op prox_op x_init
              synthesis_init opt_kwargs metric_kwargs s) as (s' & Hrun & _).
  cbv zeta. split.
  - intros o Ho.
    destruct (initialize_opt_returns opt_name grad_op linear_op prox_op x_init
                synthesis_init opt_kwargs metric_kwargs s s' o)
      as (ex & Hc & _);
      [rewrite Hrun in Ho |- *; simpl in Ho; by rewrite Ho |].
    unfold class_of in Hc. repeat case_decide; naive_solver.
  - rewrite Hrun. simpl. intros Hname Hdistinct.
    edestruct outcome_is_call as (c & ex & Hc & Hex & -> & _).
    { destruct Hname as [[-> _] | [-> | ->]]; by eexists. }
    { intros Hpogm. apply alpha_init_bound.
      destruct Hname as [[_ ?] | [-> | ->]]; done. }
    apply (keywords_distinct_spec _ _ _ _ _ Hex) in Hdistinct as [Hexp Hdis].
    eexists. by apply construct_distinct.
Qed.

(** With [alpha_init] assigned and keywords of its own, [pogm] gives a
    [POGM] instance. *)
Lemma initialize_opt_class_by_name_witness :
  ∃ o,
    (initialize_opt (Some "pogm") Sample.grad_synthesis Sample.linear
       Sample.prox None false (Some 1%positive) (Some 2%positive)
       Sample.caller).2 = Returns o ∧
    (Some "pogm" = Some "pogm" ∧ cls o = POGM ∨
     Some "pogm" = Some "fista" ∧ cls o = ForwardBackward ∨
     Some "pogm" = Some "condat-vu" ∧ cls o = Condat).
Proof.
  destruct (initialize_opt_class_by_name (Some "pogm") Sample.grad_synthesis
              Sample.linear Sample.prox None false (Some 1%positive)
              (Some 2%positive) Sample.caller) as [Hclass Hreturns].
  destruct Hreturns as [o Ho].
  - left. split; reflexivity.
  - apply (bool_decide_unpack _). vm_compute. exact I.
  - exists o. split; [exact Ho | exact (Hclass o Ho)].
Defined.

(** C2, as stated, fails: [condat-vu] is one of the three names, yet
    with [opt_kwargs] holding the keyword [x], which line 105 writes out
    itself, no [Condat] instance comes back. *)
Lemma initialize_opt_condat_no_instance :
  (initialize_opt (Some "condat-vu") Sample.grad_analysis Sample.linear
     Sample.prox (Some Sample.image) false (Some 1%positive) None
     Sample.shadowing).2 = Raises TypeError_multiple_values ∧
  ¬ ∃ o,
      (initialize_opt (Some "condat-vu") Sample.grad_analysis Sample.linear
         Sample.prox (Some Sample.image) false (Some 1%positive) None
         Sample.shadowing).2 = Returns o ∧
      cls o = Condat.
Proof.
  assert ((initialize_opt (Some "condat-vu") Sample.grad_analysis
             Sample.linear Sample.prox (Some Sample.image) false
             (Some 1%positive) None Sample.shadowing).2
          = Raises TypeError_multiple_values) as E
    by (vm_compute; reflexivity).
  simpl. rewrite E. split; [done |]. by intros (o & ? & _).
Qed.

(** ** The arguments of the constructor call *)

(** C4. In the [pogm] and [fista] branches the constructor is called
    with [beta_param] equal to [grad_op.inv_spec_rad]. *)
Theorem beta_param_is_inv_spec_rad opt_name grad_op linear_op prox_op x_init
    synthesis_init opt_kwargs metric_kwargs s s' o :
  opt_name = Some "pogm" ∨ opt_name = Some "fista" →
  initialize_opt opt_name grad_op linear_op prox_op x_init synthesis_init
    opt_kwargs metric_kwargs s = (s', Returns o) →
  init_kwargs o !! "beta_param" = Some (VFloat (Grad.inv_spec_rad grad_op)).
Proof.
  intros Hname Hrun.
  destruct (initialize_opt_returns _ _ _ _ _ _ _ _ _ _ _ Hrun)
    as (ex & _ & -> & _ & _ & Hbeta & _).
  apply lookup_union_Some_l, lookup_union_Some_l. auto.
Qed.

Lemma beta_param_is_inv_spec_rad_witness :
  ∃ s' o,
    initialize_opt (Some "fista") Sample.grad_analysis Sample.linear
      Sample.prox None false (Some 1%positive) (Some 2%positive)
      Sample.caller = (s', Returns o) ∧
    init_kwargs o !! "beta_param" = Some (VFloat 0.25).
Proof.
  eexists _, _. split; [vm_compute; reflexivity |].
  eapply (beta_param_is_inv_spec_rad (Some "fista") Sample.grad_analysis
            Sample.linear Sample.prox None false (Some 1%positive)
            (Some 2%positive) Sample.caller).
  - right. reflexivity.
  - vm_compute. reflexivity.
Defined.




(** ** Effects on the dictionaries of the caller *)

(** C9, as amended. Of the dictionary passed as [opt_kwargs], the
    [pogm] branch removes [sigma_bar] and [auto_iterate] (here for the
    calls in which the first guard of line 63 holds) and the [fista]
    branch removes [lambda_param] and [auto_iterate]; any other name
    leaves it as it is. Every other dictionary is left as it is, and so
    is [metric_kwargs] unless it is the object passed as [opt_kwargs]. *)
Theorem initialize_opt_mutation opt_name grad_op linear_op prox_op x_init
    synthesis_init opt_kwargs metric_kwargs s :
  let s' := (initialize_opt opt_name grad_op linear_op prox_op x_init
               synthesis_init opt_kwargs metric_kwargs s).1 in
  (∀ l d, opt_kwargs = Some l → heap s !! l = Some d →
     (opt_name = Some "pogm" → guard_first synthesis_init grad_op = true →
      heap s' !! l = Some (delete "auto_iterate" (delete "sigma_bar" d))) ∧
     (opt_name = Some "fista" →
      heap s' !! l = Some (delete "auto_iterate" (delete "lambda_param" d))) ∧
     (opt_name ≠ Some "pogm" → opt_name ≠ Some "fista" →
      heap s' !! l = Some d)) ∧
  (∀ l d, opt_kwargs ≠ Some l → heap s !! l = Some d → heap s' !! l = Some d).
Proof.
  destruct (initialize_opt_run opt_name grad_op linear_op prox_op x_init
              synthesis_init opt_kwargs metric_kwargs s) as (s' & -> & Hst).
  simpl. split.
  - intros l d Hopt Hl. rewrite (steps_heap _ _ _ _ _ Hst Hl).
    unfold effect_on, runs_pops. rewrite (decide_True _ _ Hopt).
    split; [| split].
    + intros Hname Hguard. rewrite (decide_True _ _ Hname).
      apply (alpha_init_bound _ _ (default_x_init grad_op x_init)) in Hguard
        as [a Ha].
      rewrite Ha. by rewrite Hname.
    + intros Hname. rewrite decide_False by (by rewrite Hname).
      by rewrite Hname.
    + intros Hpogm Hfista. rewrite (decide_False _ _ Hpogm).
      by rewrite remaining_other.
  - intros l d Hopt Hl. rewrite (steps_heap _ _ _ _ _ Hst Hl).
    unfold effect_on. by rewrite (decide_False _ _ Hopt).
Qed.

(** [pogm] takes [sigma_bar] out of the dictionary at 1 and leaves the
    one at 2 alone; [fista] and [condat-vu] find nothing to take. *)
Lemma initialize_opt_mutation_witness :
  heap (initialize_opt (Some "pogm") Sample.grad_synthesis Sample.linear
          Sample.prox None false (Some 1%positive) (Some 2%positive)
          Sample.caller).1 !! 1%positive
  = Some (delete "auto_iterate"
            (delete "sigma_bar"
               {[ "sigma_bar" := VFloat 0.5; "verbose" := VBool true ]})) ∧
  heap (initialize_opt (Some "pogm") Sample.grad_synthesis Sample.linear
          Sample.prox None false (Some 1%positive) (Some 2%positive)
          Sample.caller).1 !! 2%positive
  = Some {[ "metric_fps" := VFloat 1.0 ]} ∧
  heap (initialize_opt (Some "fista") Sample.grad_analysis Sample.linear
          Sample.prox None false (Some 1%positive) (Some 2%positive)
          Sample.caller).1 !! 1%positive
  = Some (delete "auto_iterate"
            (delete "lambda_param"
               {[ "sigma_bar" := VFloat 0.5; "verbose" := VBool true ]})) ∧
  heap (initialize_opt (Some "condat-vu") Sample.grad_analysis Sample.linear
          Sample.prox None false (Some 1%positive) (Some 2%positive)
          Sample.caller).1 !! 1%positive
  = Some {[ "sigma_bar" := VFloat 0.5; "verbose" := VBool true ]}.
Proof.
  split; [| split; [| split]].
  - destruct (initialize_opt_mutation (Some "pogm") Sample.grad_synthesis
                Sample.linear Sample.prox None false (Some 1%positive)
                (Some 2%positive) Sample.caller) as [Hopt _].
    destruct (Hopt 1%positive
                {[ "sigma_bar" := VFloat 0.5; "verbose" := VBool true ]})
      as [Hpogm _]; [reflexivity | reflexivity |].
    apply Hpogm; reflexivity.
  - destruct (initialize_opt_mutation (Some "pogm") Sample.grad_synthesis
                Sample.linear Sample.prox None false (Some 1%positive)
                (Some 2%positive) Sample.caller) as [_ Hother].
    apply (Hother 2%positive); [discriminate | reflexivity].
  - destruct (initialize_opt_mutation (Some "fista") Sample.grad_analysis
                Sample.linear Sample.prox None false (Some 1%positive)
                (Some 2%positive) Sample.caller) as [Hopt _].
    destruct (Hopt 1%positive
                {[ "sigma_bar" := VFloat 0.5; "verbose" := VBool true ]})
      as (_ & Hfista & _); [reflexivity | reflexivity |].
    apply Hfista; reflexivity.
  - destruct (initialize_opt_mutation (Some "condat-vu") Sample.grad_analysis
                Sample.linear Sample.prox None false (Some 1%positive)
                (Some 2%positive) Sample.caller) as [Hopt _].
    destruct (Hopt 1%positive
                {[ "sigma_bar" := VFloat 0.5; "verbose" := VBool true ]})
      as (_ & _ & Hother); [reflexivity | reflexivity |].
    apply Hother; discriminate.
Defined.

(** C9, as stated, fails: with one dictionary passed for both
    arguments, the pop of line 83 takes [sigma_bar] out of
    [metric_kwargs]. *)
Lemma initialize_opt_mutates_metric_kwargs :
  dict_at Sample.shared 1%positive !! "sigma_bar" = Some (VFloat 0.5) ∧
  dict_at
    (initialize_opt (Some "pogm") Sample.grad_synthesis Sample.linear
       Sample.prox None false (Some 1%positive) (Some 1%positive)
       Sample.shared).1 1%positive !! "sigma_bar" = None ∧
  heap (initialize_opt (Some "pogm") Sample.grad_synthesis Sample.linear
          Sample.prox None false (Some 1%positive) (Some 1%positive)
          Sample.shared).1 !! 1%positive
  ≠ heap Sample.shared !! 1%positive.
Proof.
  split; [reflexivity |]. split; [vm_compute; reflexivity |].
  intros E.
  apply (f_equal (λ d : option dict, d ≫= (.!! "sigma_bar"))) in E.
  vm_compute in E. discriminate E.
Qed.

(** ** No state of its own *)

Lemma bind_call_run {B : Type} c explicit unpacked (k : instance → B) s :
  (call c explicit unpacked ≫= λ g, mret (k g)) s
  = (s, match construct c explicit unpacked with
        | Returns g => Returns (k g)
        | Raises e => Raises e
        end).
Proof.
  unfold mbind, M_bind. rewrite call_run. by destruct (construct _ _ _).
Qed.

Lemma get_grad_op_run fourier_op grad_formulation linear_op verbose kwargs :
  ∃ r, ∀ s,
    get_grad_op fourier_op grad_formulation linear_op verbose kwargs s = (s, r).
Proof.
  unfold get_grad_op. repeat case_decide.
  - eexists. intros s. apply bind_call_run.
  - eexists. intros s. apply bind_call_run.
  - by eexists.
Qed.

(** C7. No call of either entry point changes the module table
    [OPTIMIZERS], and what a call yields depends on the store only
    through the contents of the dictionaries passed as [opt_kwargs] and
    [metric_kwargs]: two calls with the same arguments, from stores that
    agree on those two dictionaries, end in the same outcome, be it the
    same class with the same keywords or the same exception. *)
Theorem no_internal_state :
  (∀ fourier_op grad_formulation linear_op verbose kwargs s,
     (get_grad_op fourier_op grad_formulation linear_op verbose kwargs s).1
     = s) ∧
  (∀ opt_name grad_op linear_op prox_op x_init synthesis_init opt_kwargs
     metric_kwargs s,
     module_OPTIMIZERS
       (initialize_opt opt_name grad_op linear_op prox_op x_init
          synthesis_init opt_kwargs metric_kwargs s).1
     = module_OPTIMIZERS s) ∧
  (∀ fourier_op grad_formulation linear_op verbose kwargs s1 s2,
     (get_grad_op fourier_op grad_formulation linear_op verbose kwargs s1).2
     = (get_grad_op fourier_op grad_formulation linear_op verbose kwargs s2).2) ∧
  (∀ opt_name grad_op linear_op prox_op x_init synthesis_init opt_kwargs
     metric_kwargs s1 s2,
     kwargs_of s1 opt_kwargs = kwargs_of s2 opt_kwargs →
     kwargs_of s1 metric_kwargs = kwargs_of s2 metric_kwargs →
     (initialize_opt opt_name grad_op linear_op prox_op x_init
        synthesis_init opt_kwargs metric_kwargs s1).2
     = (initialize_opt opt_name grad_op linear_op prox_op x_init
          synthesis_init opt_kwargs metric_kwargs s2).2).
Proof.
  split_and!.
  - intros fourier_op grad_formulation linear_op verbose kwargs s.
    destruct (get_grad_op_run fourier_op grad_formulation linear_op verbose
                kwargs) as [r Hr].
    by rewrite Hr.
  - intros opt_name grad_op linear_op prox_op x_init synthesis_init
      opt_kwargs metric_kwargs s.
    destruct (initialize_opt_run opt_name grad_op linear_op prox_op x_init
                synthesis_init opt_kwargs metric_kwargs s) as (s' & -> & Hst).
    apply (steps_table _ _ _ Hst).
  - intros fourier_op grad_formulation linear_op verbose kwargs s1 s2.
    destruct (get_grad_op_run fourier_op grad_formulation linear_op verbose
                kwargs) as [r Hr].
    by rewrite !Hr.
  - intros opt_name grad_op linear_op prox_op x_init synthesis_init
      opt_kwargs metric_kwargs s1 s2 Hopt Hmetric.
    destruct (initialize_opt_run opt_name grad_op linear_op prox_op x_init
                synthesis_init opt_kwargs metric_kwargs s1) as (? & -> & _).
    destruct (initialize_opt_run opt_name grad_op linear_op prox_op x_init
                synthesis_init opt_kwargs metric_kwargs s2) as (? & -> & _).
    simpl. unfold unpacked_opt, unpacked_metric.
    by rewrite Hopt, Hmetric.
Qed.

(** The same call from two stores that share only the two dictionaries. *)
Lemma no_internal_state_witness :
  (initialize_opt (Some "pogm") Sample.grad_synthesis Sample.linear
     Sample.prox None false (Some 1%positive) (Some 2%positive)
     Sample.caller).2
  = (initialize_opt (Some "pogm") Sample.grad_synthesis Sample.linear
       Sample.prox None false (Some 1%positive) (Some 2%positive)
       Sample.caller_elsewhere).2.
Proof.
  destruct no_internal_state as (_ & _ & _ & Hsame).
  apply Hsame; vm_compute; reflexivity.
Defined.

(** ** The dead branch *)

(** C8. The guard of line 67 is the guard of line 63, so the branch of
    line 68 is never taken, and [initialize_opt] agrees on every input
    with the function that lacks that branch. *)
Theorem third_branch_unreachable :
  (∀ synthesis_init grad_op,
     guard_third synthesis_init grad_op = guard_first synthesis_init grad_op) ∧
  (∀ synthesis_init grad_op,
     negb (guard_first synthesis_init grad_op)
     && negb (guard_second synthesis_init grad_op)
     && guard_third synthesis_init grad_op = false) ∧
  (∀ opt_name grad_op linear_op prox_op x_init synthesis_init opt_kwargs
     metric_kwargs s,
     initialize_opt opt_name grad_op linear_op prox_op x_init synthesis_init
       opt_kwargs metric_kwargs s
     = initialize_opt_without_third opt_name grad_op linear_op prox_op x_init
         synthesis_init opt_kwargs metric_kwargs s).
Proof.
  split_and!.
  - reflexivity.
  - intros synthesis_init grad_op.
    unfold guard_first, guard_second, guard_third.
    by destruct synthesis_init, (hasattr_linear_op grad_op).
  - intros. unfold initialize_opt, initialize_opt_without_third.
    rewrite (bind_returns _ _ _ _ _ (initial_values_run _ _ _ _ _)).
    by rewrite (bind_returns _ _ _ _ _
                  (initial_values_without_third_run _ _ _ _ _)).
Qed.

(** ** The default initial value *)

Lemma np_size_squeezed shape :
  np_size (filter (λ n, n ≠ 1%N) shape) = np_size shape.
Proof.
  induction shape as [| n shape IH]; [done |].
  destruct (decide (n = 1%N)) as [-> | Hn].
  - rewrite filter_cons_False by (by intros []). simpl. rewrite IH. lia.
  - rewrite filter_cons_True by done. simpl. by rewrite IH.
Qed.

(** C10. With [x_init=None] the value used is an array of dtype
    [complex64], all of whose elements are zero, of the shape
    [(n_coils, *shape)] without its axes of length one. The call goes on
    exactly as if that array had been passed, and the array is what the
    optimizer starts from: [fista] and [condat-vu] get it as [x] (or
    [linear_op.adj_op] of it under the second guard), [pogm] gets
    [grad_op.linear_op.op] of it as [u], [x], [y] and [z]. *)
Theorem default_x_init_zeros grad_op :
  let fourier_op := Grad.fourier_op grad_op in
  let x0 := default_x_init grad_op None in
  nd_dtype x0 = "complex64" ∧
  nd_shape x0
  = filter (λ n, n ≠ 1%N)
      (Fourier.n_coils fourier_op :: Fourier.shape fourier_op) ∧
  Forall (λ c, c = czero) (nd_data x0) ∧
  length (nd_data x0) = N.to_nat (np_size (nd_shape x0)) ∧
  (∀ opt_name linear_op prox_op synthesis_init opt_kwargs metric_kwargs s,
     initialize_opt opt_name grad_op linear_op prox_op None synthesis_init
       opt_kwargs metric_kwargs s
     = initialize_opt opt_name grad_op linear_op prox_op (Some x0)
         synthesis_init opt_kwargs metric_kwargs s) ∧
  (∀ opt_name linear_op prox_op synthesis_init opt_kwargs metric_kwargs s,
     opt_name = Some "fista" ∨ opt_name = Some "condat-vu" ∨
     opt_name = Some "pogm" ∧ guard_first synthesis_init grad_op = true →
     keywords_distinct opt_name s opt_kwargs metric_kwargs →
     ∃ s' o,
       initialize_opt opt_name grad_op linear_op prox_op None synthesis_init
         opt_kwargs metric_kwargs s = (s', Returns o) ∧
       (opt_name ≠ Some "pogm" →
        init_kwargs o !! "x"
        = Some (VArray
                  (if synthesis_init && negb (hasattr_linear_op grad_op)
                   then Linear.adj_op linear_op x0 else x0))) ∧
       (opt_name = Some "pogm" →
        ∃ l, Grad.linear_op grad_op = Some l ∧
          Forall (λ k, init_kwargs o !! k = Some (VArray (Linear.op l x0)))
            ["u"; "x"; "y"; "z"])).
Proof.
  cbv zeta. split_and!; try done.
  - by apply Forall_replicate.
  - simpl. by rewrite length_replicate, np_size_squeezed.
  - intros opt_name linear_op prox_op synthesis_init opt_kwargs
      metric_kwargs s Hname Hdistinct.
    destruct (distinct_call_returns opt_name grad_op linear_op prox_op None
                synthesis_init opt_kwargs metric_kwargs s Hname Hdistinct)
      as (s' & o & Hrun).
    exists s', o. split; [exact Hrun |].
    destruct (returned_keywords _ _ _ _ _ _ _ _ _ _ _ Hrun)
      as (ex & _ & -> & Hpogm & Hfista & Hcondat).
    split.
    + intros Hne. destruct Hname as [Hn | [Hn | [Hn _]]]; [| | done].
      * rewrite (Hfista Hn). apply explicit_keyword_reaches. reflexivity.
      * rewrite (Hcondat Hn). apply explicit_keyword_reaches. reflexivity.
    + intros Hn. destruct (Hpogm Hn) as (a & Ha & ->).
      unfold alpha_init_of, guard_first, hasattr_linear_op in Ha.
      destruct synthesis_init, (Grad.linear_op grad_op) as [l |];
        simplify_eq/=.
      exists l. split; [done |].
      repeat (constructor; [apply explicit_keyword_reaches; reflexivity |]).
      constructor.
Qed.

(** One coil and a shape [(2, 1, 3)]: [fista] starts from six zeros in
    the shape [(2, 3)]. *)
Lemma default_x_init_zeros_witness :
  ∃ s' o,
    initialize_opt (Some "fista") Sample.grad_analysis Sample.linear
      Sample.prox None false (Some 1%positive) (Some 2%positive)
      Sample.caller = (s', Returns o) ∧
    init_kwargs o !! "x"
    = Some (VArray (NdArray "complex64" [2; 3]%N (replicate 6 czero))).
Proof.
  destruct (default_x_init_zeros Sample.grad_analysis)
    as (_ & _ & _ & _ & _ & Hused).
  destruct (Hused (Some "fista") Sample.linear Sample.prox false
              (Some 1%positive) (Some 2%positive) Sample.caller)
    as (s' & o & Hrun & Hx & _).
  - by left.
  - apply (bool_decide_unpack _). vm_compute. exact I.
  - exists s', o. split; [exact Hrun |]. apply Hx. discriminate.
Defined.

(** ** The table *)

(** C6. [OPTIMIZERS] has four entries: [pogm] for [synthesis], [fista]
    and [condat-vu] for [analysis], and [None] for [None]; each name
    [initialize_opt] implements has its formulation there. *)
Theorem OPTIMIZERS_entries :
  size OPTIMIZERS = 4 ∧
  OPTIMIZERS !! Some "pogm" = Some (Some "synthesis") ∧
  OPTIMIZERS !! Some "fista" = Some (Some "analysis") ∧
  OPTIMIZERS !! Some "condat-vu" = Some (Some "analysis") ∧
  OPTIMIZERS !! None = Some None ∧
  (∀ opt_name c, class_of opt_name = Some c →
     OPTIMIZERS !! opt_name = Some (Some "analysis") ∨
     OPTIMIZERS !! opt_name = Some (Some "synthesis")).
Proof.
  split_and!; try (vm_compute; reflexivity).
  intros opt_name c. unfold class_of.
  repeat case_decide; subst; try done; intros _.
  - right. vm_compute. reflexivity.
  - left. vm_compute. reflexivity.
  - left. vm_compute. reflexivity.
Qed.

Lemma OPTIMIZERS_entries_witness :
  OPTIMIZERS !! Some "condat-vu" = Some (Some "analysis") ∨
  OPTIMIZERS !! Some "condat-vu" = Some (Some "synthesis").
Proof.
  destruct OPTIMIZERS_entries as (_ & _ & _ & _ & _ & Hall).
  apply (Hall (Some "condat-vu") Condat). reflexivity.
Defined.

(** ** Operator selection *)

Lemma construct_one c (ex : list (string * pyval)) (d : dict) :
  (∀ k, k ∈ ex.*1 → d !! k = None) →
  construct c ex [d] = Returns {| cls := c; init_kwargs := list_to_map ex ∪ d |}.
Proof.
  intros H. unfold construct. simpl.
  rewrite decide_True; [done |]. by apply disjoint_from_explicit.
Qed.

(** C3. [get_grad_op] returns a [GradAnalysis] built from [fourier_op]
    exactly when [grad_formulation] is [analysis], a [GradSynthesis]
    built from [linear_op] and [fourier_op] exactly when it is
    [synthesis], and [None] for anything else. *)
Theorem get_grad_op_selects fourier_op grad_formulation linear_op verbose
    kwargs s :
  collected_kwargs kwargs →
  let r := (get_grad_op fourier_op grad_formulation linear_op verbose
              kwargs s).2 in
  ((∃ g, r = Returns (Some g) ∧ cls g = GradAnalysis ∧
         init_kwargs g !! "fourier_op" = Some (VFourier fourier_op))
   ↔ grad_formulation = Some "analysis") ∧
  ((∃ g, r = Returns (Some g) ∧ cls g = GradSynthesis ∧
         init_kwargs g !! "linear_op"
         = Some (from_option VLinear VNone linear_op) ∧
         init_kwargs g !! "fourier_op" = Some (VFourier fourier_op))
   ↔ grad_formulation = Some "synthesis") ∧
  (grad_formulation ≠ Some "analysis" → grad_formulation ≠ Some "synthesis" →
   r = Returns None).
Proof.
  intros Hcollected. unfold get_grad_op.
  unfold collected_kwargs in Hcollected. rewrite !Forall_cons in Hcollected.
  destruct Hcollected as (Hfourier & _ & Hlinear & Hverbose & _).
  assert (∀ k, k ∈ ["fourier_op"; "verbose"] → kwargs !! k = None) as Ha.
  { intros k Hk. repeat (apply elem_of_cons in Hk as [-> | Hk]; [done |]).
    by apply elem_of_nil in Hk. }
  assert (∀ k, k ∈ ["linear_op"; "fourier_op"; "verbose"] → kwargs !! k = None)
    as Hs.
  { intros k Hk. repeat (apply elem_of_cons in Hk as [-> | Hk]; [done |]).
    by apply elem_of_nil in Hk. }
  destruct (decide (grad_formulation = Some "analysis")) as [-> | Hna].
  { rewrite bind_call_run, construct_one by done. simpl. split_and!.
    - split; [done |]. intros _. eexists. split_and!; try done.
      by apply lookup_union_Some_l.
    - split; [| done]. by intros (g & [= <-] & ? & _).
    - done. }
  destruct (decide (grad_formulation = Some "synthesis")) as [-> | Hns].
  { rewrite bind_call_run, construct_one by done. simpl. split_and!.
    - split; [| done]. by intros (g & [= <-] & ? & _).
    - split; [done |]. intros _. eexists. split_and!; try done.
      + by apply lookup_union_Some_l.
      + by apply lookup_union_Some_l.
    - done. }
  simpl. split_and!; [| | done].
  - split; [| done]. by intros (g & ? & _).
  - split; [| done]. by intros (g & ? & _).
Qed.

(** The two formulations of the table, with a keyword of the caller's,
    and the formulation [None] that the table holds as well. *)
Lemma get_grad_op_selects_witness :
  (∃ g,
     (get_grad_op Sample.fourier (Some "analysis") None true
        {[ "lips_calc_max_iter" := VNone ]} module_loaded).2
     = Returns (Some g) ∧
     cls g = GradAnalysis ∧
     init_kwargs g !! "fourier_op" = Some (VFourier Sample.fourier)) ∧
  (∃ g,
     (get_grad_op Sample.fourier (Some "synthesis") (Some Sample.linear) true
        {[ "lips_calc_max_iter" := VNone ]} module_loaded).2
     = Returns (Some g) ∧
     cls g = GradSynthesis ∧
     init_kwargs g !! "linear_op" = Some (VLinear Sample.linear) ∧
     init_kwargs g !! "fourier_op" = Some (VFourier Sample.fourier)) ∧
  (get_grad_op Sample.fourier None None true
     {[ "lips_calc_max_iter" := VNone ]} module_loaded).2
  = Returns None.
Proof.
  assert (collected_kwargs {[ "lips_calc_max_iter" := VNone ]}) as Hcollected.
  { repeat (constructor; [reflexivity |]). constructor. }
  split; [| split].
  - apply (get_grad_op_selects Sample.fourier (Some "analysis") None true
             {[ "lips_calc_max_iter" := VNone ]} module_loaded Hcollected).
    reflexivity.
  - apply (get_grad_op_selects Sample.fourier (Some "synthesis")
             (Some Sample.linear) true
             {[ "lips_calc_max_iter" := VNone ]} module_loaded Hcollected).
    reflexivity.
  - apply (get_grad_op_selects Sample.fourier None None true
             {[ "lips_calc_max_iter" := VNone ]} module_loaded Hcollected);
      discriminate.
Defined.

(** * Further properties of the module *)

(** ** What a failing call leaves behind *)

(** X1. When the guard of line 63 fails, a [pogm] call raises
    [UnboundLocalError] at line 75, and it does so before any pop: every
    dictionary of the caller is as it was. *)
Theorem pogm_unassigned_leaves_dicts grad_op linear_op prox_op x_init
    synthesis_init opt_kwargs metric_kwargs s :
  guard_first synthesis_init grad_op = false →
  (initialize_opt (Some "pogm") grad_op linear_op prox_op x_init
     synthesis_init opt_kwargs metric_kwargs s).2
  = Raises (UnboundLocalError "alpha_init") ∧
  ∀ l d, heap s !! l = Some d →
    heap (initialize_opt (Some "pogm") grad_op linear_op prox_op x_init
            synthesis_init opt_kwargs metric_kwargs s).1 !! l = Some d.
Proof.
  intros Hguard.
  destruct (initialize_opt_run (Some "pogm") grad_op linear_op prox_op x_init
              synthesis_init opt_kwargs metric_kwargs s) as (s' & -> & Hst).
  simpl. unfold alpha_init_of in *. rewrite Hguard in *. split; [done |].
  intros l d Hl. rewrite (steps_heap _ _ _ _ _ Hst Hl).
  unfold effect_on, runs_pops. simpl.
  by destruct (decide (opt_kwargs = Some l)).
Qed.

(** [synthesis_init=True] with a synthesis gradient: the error, and
    [sigma_bar] still in the dictionary at 1. *)
Lemma pogm_unassigned_leaves_dicts_witness :
  (initialize_opt (Some "pogm") Sample.grad_synthesis Sample.linear
     Sample.prox None true (Some 1%positive) (Some 2%positive)
     Sample.caller).2
  = Raises (UnboundLocalError "alpha_init") ∧
  heap (initialize_opt (Some "pogm") Sample.grad_synthesis Sample.linear
          Sample.prox None true (Some 1%positive) (Some 2%positive)
          Sample.caller).1 !! 1%positive
  = Some {[ "sigma_bar" := VFloat 0.5; "verbose" := VBool true ]}.
Proof.
  destruct (pogm_unassigned_leaves_dicts Sample.grad_synthesis Sample.linear
              Sample.prox None true (Some 1%positive) (Some 2%positive)
              Sample.caller) as [Hraise Hframe]; [reflexivity |].
  split; [exact Hraise |]. apply Hframe. reflexivity.
Defined.

(** X2. A call of [pogm] or [fista] that fails because a keyword comes
    twice has already popped: the [TypeError] leaves [opt_kwargs]
    without the keys of its branch. *)
Theorem type_error_after_pops opt_name grad_op linear_op prox_op x_init
    synthesis_init l metric_kwargs s d :
  opt_name = Some "fista" ∨
  opt_name = Some "pogm" ∧ guard_first synthesis_init grad_op = true →
  heap s !! l = Some d →
  ¬ keywords_distinct opt_name s (Some l) metric_kwargs →
  (initialize_opt opt_name grad_op linear_op prox_op x_init synthesis_init
     (Some l) metric_kwargs s).2 = Raises TypeError_multiple_values ∧
  heap (initialize_opt opt_name grad_op linear_op prox_op x_init
          synthesis_init (Some l) metric_kwargs s).1 !! l
  = Some (remaining opt_name d) ∧
  ∀ k, k ∈ popped_keys opt_name → remaining opt_name d !! k = None.
Proof.
  intros Hname Hl Hclash.
  destruct (initialize_opt_run opt_name grad_op linear_op prox_op x_init
              synthesis_init (Some l) metric_kwargs s) as (s' & -> & Hst).
  simpl.
  assert (is_Some (alpha_init_of synthesis_init grad_op
                     (default_x_init grad_op x_init))
          ∨ opt_name ≠ Some "pogm") as Hbound.
  { destruct Hname as [-> | [_ Hguard]]; [by right | left].
    by apply alpha_init_bound. }
  split; [| split].
  - edestruct outcome_is_call as (c & ex & _ & Hex & -> & _).
    { destruct Hname as [-> | [-> _]]; by eexists. }
    { intros Hpogm. by destruct Hbound. }
    apply construct_clash. by rewrite <- (keywords_distinct_spec _ _ _ _ _ Hex).
  - rewrite (steps_heap _ _ _ _ _ Hst Hl).
    unfold effect_on, runs_pops. rewrite decide_True by done.
    destruct (decide (opt_name = Some "pogm")); [| done].
    destruct Hbound as [[a ->] | ?]; done.
  - intros k Hk. by rewrite remaining_lookup, decide_True.
Qed.

Lemma type_error_after_pops_witness :
  (initialize_opt (Some "fista") Sample.grad_analysis Sample.linear
     Sample.prox None false (Some 1%positive) (Some 2%positive)
     Scenario.verbose_twice).2 = Raises TypeError_multiple_values ∧
  heap (initialize_opt (Some "fista") Sample.grad_analysis Sample.linear
          Sample.prox None false (Some 1%positive) (Some 2%positive)
          Scenario.verbose_twice).1 !! 1%positive
  = Some (remaining (Some "fista")
            {[ "lambda_param" := VFloat 2.0; "verbose" := VBool true ]}) ∧
  remaining (Some "fista")
    {[ "lambda_param" := VFloat 2.0; "verbose" := VBool true ]}
    !! "lambda_param" = None.
Proof.
  destruct (type_error_after_pops (Some "fista") Sample.grad_analysis
              Sample.linear Sample.prox None false 1%positive
              (Some 2%positive) Scenario.verbose_twice
              {[ "lambda_param" := VFloat 2.0; "verbose" := VBool true ]})
    as (Hraise & Hheap & Hgone).
  - by left.
  - reflexivity.
  - intros Hdistinct. apply (bool_decide_pack _) in Hdistinct.
    vm_compute in Hdistinct. exact Hdistinct.
  - split; [exact Hraise |]. split; [exact Hheap |].
    apply Hgone. apply elem_of_cons. by left.
Defined.

(** ** What reaches the constructor *)

(** X3. A [POGM] instance is only ever made with [synthesis_init]
    false and a [grad_op] that has a [linear_op]; its four arrays [u],
    [x], [y], [z] are one and the same, the image of the initial value
    under [grad_op.linear_op.op], whatever [linear_op] was passed. *)
Theorem pogm_initial_arrays grad_op linear_op prox_op x_init synthesis_init
    opt_kwargs metric_kwargs s s' o :
  initialize_opt (Some "pogm") grad_op linear_op prox_op x_init
    synthesis_init opt_kwargs metric_kwargs s = (s', Returns o) →
  synthesis_init = false ∧
  ∃ l, Grad.linear_op grad_op = Some l ∧
    Forall
      (λ k, init_kwargs o !! k
            = Some (VArray (Linear.op l (default_x_init grad_op x_init))))
      ["u"; "x"; "y"; "z"].
Proof.
  intros Hrun.
  destruct (returned_keywords _ _ _ _ _ _ _ _ _ _ _ Hrun)
    as (ex & _ & -> & Hpogm & _).
  destruct Hpogm as (a & Ha & ->); [done |].
  unfold alpha_init_of, guard_first, hasattr_linear_op in Ha.
  destruct synthesis_init, (Grad.linear_op grad_op) as [l |];
    simplify_eq/=.
  split; [done |]. exists l. split; [done |].
  repeat (constructor; [apply explicit_keyword_reaches; reflexivity |]).
  constructor.
Qed.

Lemma pogm_initial_arrays_witness :
  ∃ s' o,
    initialize_opt (Some "pogm") Sample.grad_synthesis Sample.linear
      Sample.prox (Some Sample.image) false (Some 1%positive)
      (Some 2%positive) Sample.caller = (s', Returns o) ∧
    init_kwargs o !! "z"
    = Some (VArray (Linear.op Sample.linear Sample.image)).
Proof.
  eexists _, _. split; [vm_compute; reflexivity |].
  edestruct (pogm_initial_arrays Sample.grad_synthesis Sample.linear
               Sample.prox (Some Sample.image) false (Some 1%positive)
               (Some 2%positive) Sample.caller) as (_ & l & Hl & Harrays);
    [vm_compute; reflexivity |].
  injection Hl as <-.
  rewrite !Forall_cons in Harrays. exact (proj1 (proj2 (proj2 (proj2 Harrays)))).
Defined.

(** X4. [fista] and [condat-vu] start from the initial value itself,
    except that with [synthesis_init] true and a [grad_op] without
    [linear_op] they start from [linear_op.adj_op] of it; [condat-vu]
    passes as [y] the image of that [x] under [linear_op.op]. *)
Theorem fista_condat_initial_arrays opt_name grad_op linear_op prox_op x_init
    synthesis_init opt_kwargs metric_kwargs s s' o :
  opt_name = Some "fista" ∨ opt_name = Some "condat-vu" →
  initialize_opt opt_name grad_op linear_op prox_op x_init synthesis_init
    opt_kwargs metric_kwargs s = (s', Returns o) →
  let x0 := default_x_init grad_op x_init in
  let x := if synthesis_init && negb (hasattr_linear_op grad_op)
           then Linear.adj_op linear_op x0 else x0 in
  init_kwargs o !! "x" = Some (VArray x) ∧
  (opt_name = Some "condat-vu" →
   init_kwargs o !! "y" = Some (VArray (Linear.op linear_op x))).
Proof.
  intros Hname Hrun x0 x.
  destruct (returned_keywords _ _ _ _ _ _ _ _ _ _ _ Hrun)
    as (ex & _ & -> & _ & Hfista & Hcondat).
  destruct Hname as [-> | ->].
  - rewrite Hfista by done. split; [| done].
    apply explicit_keyword_reaches. reflexivity.
  - rewrite Hcondat by done. split; [| intros _];
      apply explicit_keyword_reaches; reflexivity.
Qed.

Lemma fista_condat_initial_arrays_witness :
  ∃ s' o,
    initialize_opt (Some "condat-vu") Sample.grad_analysis Sample.linear
      Sample.prox (Some Sample.image) true None None module_loaded
    = (s', Returns o) ∧
    init_kwargs o !! "x"
    = Some (VArray (Linear.adj_op Sample.linear Sample.image)) ∧
    init_kwargs o !! "y"
    = Some (VArray (Linear.op Sample.linear
                      (Linear.adj_op Sample.linear Sample.image))).
Proof.
  eexists _, _. split; [vm_compute; reflexivity |].
  edestruct (fista_condat_initial_arrays (Some "condat-vu")
               Sample.grad_analysis Sample.linear Sample.prox
               (Some Sample.image) true None None module_loaded)
    as [Hx Hy]; [by right | vm_compute; reflexivity |].
  split; [exact Hx | exact (Hy eq_refl)].
Defined.

(** X5. Every instance gets [grad_op] as [grad] and [linear_op] as
    [linear]. The proximity operator is the [prox] of [POGM] and
    [ForwardBackward], but the [prox_dual] of [Condat], whose [prox] is
    the object made by [Identity()]. *)
Theorem operators_forwarded opt_name grad_op linear_op prox_op x_init
    synthesis_init opt_kwargs metric_kwargs s s' o :
  initialize_opt opt_name grad_op linear_op prox_op x_init synthesis_init
    opt_kwargs metric_kwargs s = (s', Returns o) →
  init_kwargs o !! "grad" = Some (VGrad grad_op) ∧
  init_kwargs o !! "linear" = Some (VLinear linear_op) ∧
  (cls o = Condat →
   init_kwargs o !! "prox" = Some VIdentity ∧
   init_kwargs o !! "prox_dual" = Some (VProx prox_op)) ∧
  (cls o ≠ Condat → init_kwargs o !! "prox" = Some (VProx prox_op)).
Proof.
  intros Hrun.
  destruct (initialize_opt_returns _ _ _ _ _ _ _ _ _ _ _ Hrun)
    as (_ & Hclass & _).
  destruct (returned_keywords _ _ _ _ _ _ _ _ _ _ _ Hrun)
    as (ex & _ & -> & Hpogm & Hfista & Hcondat).
  unfold class_of in Hclass.
  destruct (decide (opt_name = Some "pogm")) as [Hn | _].
  { destruct (Hpogm Hn) as (a & _ & ->). injection Hclass as <-.
    split_and!; try done; try intros _;
      apply explicit_keyword_reaches; reflexivity. }
  destruct (decide (opt_name = Some "fista")) as [Hn | _].
  { rewrite (Hfista Hn). injection Hclass as <-.
    split_and!; try done; try intros _;
      apply explicit_keyword_reaches; reflexivity. }
  destruct (decide (opt_name = Some "condat-vu")) as [Hn | _]; [| done].
  rewrite (Hcondat Hn). injection Hclass as <-.
  split_and!; try done; try intros _; try split;
    apply explicit_keyword_reaches; reflexivity.
Qed.

Lemma operators_forwarded_witness :
  ∃ s' o,
    initialize_opt (Some "condat-vu") Sample.grad_analysis Sample.linear
      Sample.prox None false (Some 1%positive) (Some 2%positive)
      Sample.caller = (s', Returns o) ∧
    init_kwargs o !! "grad" = Some (VGrad Sample.grad_analysis) ∧
    init_kwargs o !! "prox" = Some VIdentity ∧
    init_kwargs o !! "prox_dual" = Some (VProx Sample.prox).
Proof.
  eexists _, _. split; [vm_compute; reflexivity |].
  edestruct (operators_forwarded (Some "condat-vu") Sample.grad_analysis
               Sample.linear Sample.prox None false (Some 1%positive)
               (Some 2%positive) Sample.caller)
    as (Hgrad & _ & Hcondat & _); [vm_compute; reflexivity |].
  split; [exact Hgrad |]. exact (Hcondat eq_refl).
Defined.

(** X6. The constructor gets no keyword from anywhere else: each one is
    either written out in the call of its branch, or a key of
    [opt_kwargs], or a key of [metric_kwargs]. *)
Theorem no_other_keyword opt_name grad_op linear_op prox_op x_init
    synthesis_init opt_kwargs metric_kwargs s s' o k :
  initialize_opt opt_name grad_op linear_op prox_op x_init synthesis_init
    opt_kwargs metric_kwargs s = (s', Returns o) →
  is_Some (init_kwargs o !! k) →
  k ∈ explicit_keywords opt_name ∨
  is_Some (kwargs_of s opt_kwargs !! k) ∨
  is_Some (kwargs_of s metric_kwargs !! k).
Proof.
  intros Hrun Hk.
  destruct (returned_keywords _ _ _ _ _ _ _ _ _ _ _ Hrun)
    as (ex & Hex & Hkw & _).
  rewrite Hkw in Hk. clear Hkw.
  assert (∀ d : dict, is_Some (remaining opt_name d !! k) → is_Some (d !! k))
    as Hrem.
  { intros d. rewrite remaining_lookup. case_decide; [by intros [? ?] | done]. }
  apply lookup_union_is_Some in Hk as [Hk | Hk].
  - apply lookup_union_is_Some in Hk as [Hk | Hk].
    + left. rewrite <- Hex.
      destruct (decide (k ∈ ex.*1)) as [? | Hout]; [done |].
      apply (not_elem_of_list_to_map (M := gmap string)) in Hout.
      rewrite Hout in Hk. by destruct Hk.
    + right. left. by apply Hrem.
  - right. unfold unpacked_metric in Hk.
    destruct (decide (opt_kwargs = metric_kwargs)); [left; by apply Hrem |].
    by right.
Qed.

Lemma no_other_keyword_witness :
  ∃ s' o,
    initialize_opt (Some "fista") Sample.grad_analysis Sample.linear
      Sample.prox None false (Some 1%positive) (Some 2%positive)
      Sample.caller = (s', Returns o) ∧
    is_Some (init_kwargs o !! "metric_fps") ∧
    ("metric_fps" ∈ explicit_keywords (Some "fista") ∨
     is_Some (kwargs_of Sample.caller (Some 1%positive) !! "metric_fps") ∨
     is_Some (kwargs_of Sample.caller (Some 2%positive) !! "metric_fps")).
Proof.
  eexists _, _. split; [vm_compute; reflexivity |].
  assert (∀ A (x : A), is_Some (Some x)) as Hsome by (intros; by eexists).
  split; [vm_compute; apply Hsome |].
  eapply (no_other_keyword (Some "fista") Sample.grad_analysis Sample.linear
            Sample.prox None false (Some 1%positive) (Some 2%positive)
            Sample.caller).
  - vm_compute. reflexivity.
  - vm_compute. apply Hsome.
Defined.

(** ** The flag [synthesis_init] *)

Lemma bind_ext_at {A B : Type} (m : M A) (k1 k2 : A → M B) s :
  (∀ a s', k1 a s' = k2 a s') → (m ≫= k1) s = (m ≫= k2) s.
Proof.
  intros E. unfold mbind, M_bind. destruct (m s) as [s' [a | e]]; [apply E | done].
Qed.

(** Outside the [pogm] branch nothing reads [alpha_init]. *)
Lemma dispatch_ignores_alpha_init opt_name grad_op linear_op prox_op
    alpha1 alpha2 x_init opt_kwargs metric_kwargs s :
  opt_name ≠ Some "pogm" →
  dispatch opt_name grad_op linear_op prox_op alpha1 x_init
    opt_kwargs metric_kwargs s
  = dispatch opt_name grad_op linear_op prox_op alpha2 x_init
      opt_kwargs metric_kwargs s.
Proof.
  intros Hname. unfold dispatch.
  apply bind_ext_at. intros lo s1. apply bind_ext_at. intros lm s2.
  by rewrite !(decide_False _ _ Hname).
Qed.

(** X7. With a [grad_op] that has a [linear_op], [synthesis_init] makes
    no difference to [fista], [condat-vu] or an unknown name: the call
    ends in the same store with the same outcome, whichever way the flag
    is set. *)
Theorem synthesis_init_ignored opt_name grad_op linear_op prox_op x_init
    opt_kwargs metric_kwargs s :
  is_Some (Grad.linear_op grad_op) →
  opt_name ≠ Some "pogm" →
  initialize_opt opt_name grad_op linear_op prox_op x_init true
    opt_kwargs metric_kwargs s
  = initialize_opt opt_name grad_op linear_op prox_op x_init false
      opt_kwargs metric_kwargs s.
Proof.
  intros [l Hl] Hname. unfold initialize_opt.
  rewrite !(bind_returns _ _ _ _ _ (initial_values_run _ _ _ _ _)).
  unfold x_init_of, guard_second, hasattr_linear_op. rewrite Hl. simpl.
  by apply dispatch_ignores_alpha_init.
Qed.

Lemma synthesis_init_ignored_witness :
  initialize_opt (Some "fista") Sample.grad_synthesis Sample.linear
    Sample.prox (Some Sample.image) true (Some 1%positive) (Some 2%positive)
    Sample.caller
  = initialize_opt (Some "fista") Sample.grad_synthesis Sample.linear
      Sample.prox (Some Sample.image) false (Some 1%positive)
      (Some 2%positive) Sample.caller.
Proof.
  apply (synthesis_init_ignored (Some "fista") Sample.grad_synthesis).
  - by eexists.
  - discriminate.
Defined.

(** ** The names of the table *)

Lemma OPTIMIZERS_formulation opt_name f :
  OPTIMIZERS !! opt_name = Some (Some f) ↔
  opt_name = Some "pogm" ∧ f = "synthesis" ∨
  opt_name = Some "fista" ∧ f = "analysis" ∨
  opt_name = Some "condat-vu" ∧ f = "analysis".
Proof.
  unfold OPTIMIZERS. rewrite !lookup_insert, lookup_empty.
  destruct (decide (Some "pogm" = opt_name)) as [<- | Hpogm].
  { split; [intros [= <-]; by left | intros [[_ ->] | [[? _] | [? _]]]; done]. }
  destruct (decide (Some "fista" = opt_name)) as [<- | Hfista].
  { split; [intros [= <-]; right; by left
           | intros [[? _] | [[_ ->] | [? _]]]; done]. }
  destruct (decide (Some "condat-vu" = opt_name)) as [<- | Hcondat].
  { split; [intros [= <-]; right; by right
           | intros [[? _] | [[? _] | [_ ->]]]; done]. }
  destruct (decide (None = opt_name)) as [<- | Hnone].
  { split; [done | intros [[? _] | [[? _] | [? _]]]; done]. }
  split; [done | intros [[-> _] | [[-> _] | [-> _]]]; done].
Qed.

(** X8. [initialize_opt] raises its [ValueError] for exactly the names
    to which [OPTIMIZERS] gives no formulation: the names that are not
    keys of the table, and [None]. *)
Theorem value_error_iff_not_in_table opt_name grad_op linear_op prox_op
    x_init synthesis_init opt_kwargs metric_kwargs s :
  (initialize_opt opt_name grad_op linear_op prox_op x_init synthesis_init
     opt_kwargs metric_kwargs s).2
  = Raises (ValueError (not_implemented opt_name))
  ↔ ¬ ∃ f, OPTIMIZERS !! opt_name = Some (Some f).
Proof.
  destruct (initialize_opt_run opt_name grad_op linear_op prox_op x_init
              synthesis_init opt_kwargs metric_kwargs s) as (s' & -> & _).
  simpl. split.
  - intros Hraise [f Hf]. apply OPTIMIZERS_formulation in Hf.
    unfold outcome_of_dispatch in Hraise.
    destruct (decide (opt_name = Some "pogm")) as [-> | Hpogm].
    { destruct (alpha_init_of _ _ _); [| done].
      unfold construct in Hraise. by destruct (merge_keywords _ _). }
    destruct (decide (opt_name = Some "fista")) as [-> | Hfista].
    { unfold construct in Hraise. by destruct (merge_keywords _ _). }
    destruct (decide (opt_name = Some "condat-vu")) as [-> | Hcondat].
    { unfold construct in Hraise. by destruct (merge_keywords _ _). }
    by destruct Hf as [[? _] | [[? _] | [? _]]].
  - intros Hnone. unfold outcome_of_dispatch.
    rewrite !decide_False; [done | | |]; intros ->; apply Hnone.
    + exists "analysis". apply OPTIMIZERS_formulation. right. by right.
    + exists "analysis". apply OPTIMIZERS_formulation. right. by left.
    + exists "synthesis". apply OPTIMIZERS_formulation. by left.
Qed.

(** [None] is a key of the table and still not a name of an optimizer. *)
Lemma value_error_iff_not_in_table_witness :
  (initialize_opt None Sample.grad_analysis Sample.linear Sample.prox None
     false None None module_loaded).2
  = Raises (ValueError "Optimizer None not implemented").
Proof.
  apply (value_error_iff_not_in_table None Sample.grad_analysis Sample.linear
           Sample.prox None false None None module_loaded).
  intros [f Hf]. vm_compute in Hf. discriminate Hf.
Defined.

(** ** Keywords of the gradient operator *)

Lemma construct_one_returns c (ex : list (string * pyval)) (d : dict) o :
  construct c ex [d] = Returns o →
  o = {| cls := c; init_kwargs := list_to_map ex ∪ d |} ∧
  list_to_map ex ##ₘ d.
Proof.
  unfold construct. cbn [merge_keywords].
  destruct (decide (list_to_map ex ##ₘ d)); [| done]. by intros [= <-].
Qed.

Lemma get_grad_op_returns fourier_op grad_formulation linear_op verbose
    kwargs s g :
  (get_grad_op fourier_op grad_formulation linear_op verbose kwargs s).2
  = Returns (Some g) →
  ∃ ex : list (string * pyval),
    init_kwargs g = list_to_map ex ∪ kwargs ∧
    list_to_map ex ##ₘ kwargs ∧
    (grad_formulation = Some "analysis" ∧ cls g = GradAnalysis ∧
     ex = [("fourier_op", VFourier fourier_op); ("verbose", VBool verbose)] ∨
     grad_formulation = Some "synthesis" ∧ cls g = GradSynthesis ∧
     ex = [("linear_op", from_option VLinear VNone linear_op);
           ("fourier_op", VFourier fourier_op);
           ("verbose", VBool verbose)]).
Proof.
  unfold get_grad_op.
  destruct (decide (grad_formulation = Some "analysis")) as [-> | Hna];
    [| destruct (decide (grad_formulation = Some "synthesis")) as [-> | Hns]].
  - rewrite bind_call_run.
    destruct (construct _ _ _) as [o |] eqn:Hcall; [| done].
    apply construct_one_returns in Hcall as [-> Hdis]. intros [= <-].
    exists [("fourier_op", VFourier fourier_op); ("verbose", VBool verbose)].
    split; [reflexivity |]. split; [exact Hdis |]. by left.
  - rewrite bind_call_run.
    destruct (construct _ _ _) as [o |] eqn:Hcall; [| done].
    apply construct_one_returns in Hcall as [-> Hdis]. intros [= <-].
    exists [("linear_op", from_option VLinear VNone linear_op);
            ("fourier_op", VFourier fourier_op); ("verbose", VBool verbose)].
    split; [reflexivity |]. split; [exact Hdis |]. by right.
  - done.
Qed.

(** X9. The operator [get_grad_op] builds gets [verbose] and every pair
    of [kwargs] as given, and no keyword beyond those and the operators
    of its branch; a [GradAnalysis] gets no [linear_op] other than one
    the caller put into [kwargs]. *)
Theorem get_grad_op_forwards fourier_op grad_formulation linear_op verbose
    kwargs s g :
  (get_grad_op fourier_op grad_formulation linear_op verbose kwargs s).2
  = Returns (Some g) →
  init_kwargs g !! "verbose" = Some (VBool verbose) ∧
  (∀ k v, kwargs !! k = Some v → init_kwargs g !! k = Some v) ∧
  (∀ k, is_Some (init_kwargs g !! k) →
        k ∈ ["linear_op"; "fourier_op"; "verbose"] ∨ is_Some (kwargs !! k)) ∧
  (cls g = GradAnalysis → init_kwargs g !! "linear_op" = kwargs !! "linear_op").
Proof.
  intros Hrun.
  destruct (get_grad_op_returns _ _ _ _ _ _ _ Hrun) as (ex & -> & Hdis & Hex).
  split_and!.
  - apply lookup_union_Some_l.
    by destruct Hex as [(_ & _ & ->) | (_ & _ & ->)].
  - intros k v Hk. by apply lookup_union_Some_r.
  - intros k Hk. apply lookup_union_is_Some in Hk as [Hk | Hk]; [| by right].
    left. destruct (decide (k ∈ ex.*1)) as [Hin | Hout].
    + destruct Hex as [(_ & _ & ->) | (_ & _ & ->)]; simpl in Hin;
        [apply elem_of_cons; right |]; done.
    + apply (not_elem_of_list_to_map (M := gmap string)) in Hout.
      rewrite Hout in Hk. by destruct Hk.
  - intros Hcls. destruct Hex as [(_ & _ & ->) | (_ & Hc & _)];
      [| by rewrite Hc in Hcls].
    by rewrite lookup_union_r.
Qed.

Lemma get_grad_op_forwards_witness :
  ∃ g,
    (get_grad_op Sample.fourier (Some "analysis") (Some Sample.linear) true
       {[ "lips_calc_max_iter" := VNone ]} module_loaded).2
    = Returns (Some g) ∧
    init_kwargs g !! "verbose" = Some (VBool true) ∧
    init_kwargs g !! "lips_calc_max_iter" = Some VNone ∧
    init_kwargs g !! "linear_op" = None.
Proof.
  eexists. split; [vm_compute; reflexivity |].
  edestruct (get_grad_op_forwards Sample.fourier (Some "analysis")
               (Some Sample.linear) true
               {[ "lips_calc_max_iter" := VNone ]} module_loaded)
    as (Hverbose & Hkwargs & _ & Hlinear); [vm_compute; reflexivity |].
  split; [exact Hverbose |]. split; [apply Hkwargs; reflexivity |].
  rewrite (Hlinear eq_refl). reflexivity.
Defined.

(** X10. The table and [get_grad_op] fit: for every name to which
    [OPTIMIZERS] gives a formulation, [get_grad_op] called with that
    formulation builds an operator, a [GradSynthesis] for [pogm] and a
    [GradAnalysis] for the other names. *)
Theorem table_formulation_builds opt_name f fourier_op linear_op verbose
    kwargs s :
  OPTIMIZERS !! opt_name = Some (Some f) →
  collected_kwargs kwargs →
  ∃ g,
    (get_grad_op fourier_op (Some f) linear_op verbose kwargs s).2
    = Returns (Some g) ∧
    cls g = (if decide (opt_name = Some "pogm") then GradSynthesis
             else GradAnalysis).
Proof.
  intros Hf Hcollected. apply OPTIMIZERS_formulation in Hf.
  unfold collected_kwargs in Hcollected. rewrite !Forall_cons in Hcollected.
  destruct Hcollected as (Hfourier & _ & Hlinear & Hverbose & _).
  assert (∀ k, k ∈ ["fourier_op"; "verbose"] → kwargs !! k = None) as Ha.
  { intros k Hk. repeat (apply elem_of_cons in Hk as [-> | Hk]; [done |]).
    by apply elem_of_nil in Hk. }
  assert (∀ k, k ∈ ["linear_op"; "fourier_op"; "verbose"] → kwargs !! k = None)
    as Hs.
  { intros k Hk. repeat (apply elem_of_cons in Hk as [-> | Hk]; [done |]).
    by apply elem_of_nil in Hk. }
  unfold get_grad_op.
  destruct Hf as [[-> ->] | [[-> ->] | [-> ->]]]; simpl;
    rewrite bind_call_run, construct_one by done; by eexists.
Qed.

Lemma table_formulation_builds_witness :
  ∃ g,
    (get_grad_op Sample.fourier (Some "synthesis") (Some Sample.linear) false
       ∅ module_loaded).2 = Returns (Some g) ∧
    cls g = GradSynthesis.
Proof.
  apply (table_formulation_builds (Some "pogm") "synthesis" Sample.fourier
           (Some Sample.linear) false ∅ module_loaded).
  - reflexivity.
  - repeat (constructor; [reflexivity |]). constructor.
Defined.

(** ** Calling again, and one dictionary for both arguments *)

(** X11. A dictionary is used up by the call it is passed to: when
    [initialize_opt] is called a second time with the same [opt_kwargs]
    object, the instance it returns has the defaults for the popped
    keys, 0.96 and [False] for [pogm], 1.0 and [False] for [fista],
    whatever the dictionary held before the first call. *)
Theorem second_call_takes_defaults opt_name grad_op linear_op prox_op x_init
    synthesis_init l metric_kwargs s s1 r1 s2 o2 :
  initialize_opt opt_name grad_op linear_op prox_op x_init synthesis_init
    (Some l) metric_kwargs s = (s1, r1) →
  initialize_opt opt_name grad_op linear_op prox_op x_init synthesis_init
    (Some l) metric_kwargs s1 = (s2, Returns o2) →
  (opt_name = Some "pogm" →
   init_kwargs o2 !! "sigma_bar" = Some (VFloat 0.96) ∧
   init_kwargs o2 !! "auto_iterate" = Some (VBool false)) ∧
  (opt_name = Some "fista" →
   init_kwargs o2 !! "lambda_param" = Some (VFloat 1.0) ∧
   init_kwargs o2 !! "auto_iterate" = Some (VBool false)).
Proof.
  intros Hfirst Hsecond.
  destruct (initialize_opt_run opt_name grad_op linear_op prox_op x_init
              synthesis_init (Some l) metric_kwargs s) as (s1' & Hrun & Hst).
  rewrite Hrun in Hfirst. injection Hfirst as -> _.
  destruct (initialize_opt_run opt_name grad_op linear_op prox_op x_init
              synthesis_init (Some l) metric_kwargs s1) as (s2' & Hrun2 & _).
  pose proof Hsecond as Ho2. rewrite Hrun2 in Ho2. injection Ho2 as _ Ho2.
  destruct (outcome_returns_implemented _ _ _ _ _ _ _ _ _ _ Ho2)
    as [_ Hbound].
  destruct (initialize_opt_returns _ _ _ _ _ _ _ _ _ _ _ Hsecond)
    as (ex & _ & -> & _ & _ & _ & Hpogm & Hfista).
  assert (∀ k, k ∈ popped_keys opt_name →
            (opt_name = Some "pogm" ∨ opt_name = Some "fista") →
            kwargs_of s1 (Some l) !! k = None) as Hgone.
  { intros k Hk Hname. simpl. rewrite (steps_dict _ _ _ Hst).
    unfold effect_on, runs_pops. rewrite decide_True by done.
    destruct (decide (opt_name = Some "pogm")) as [Hn | _].
    - destruct (Hbound Hn) as [a ->]. by rewrite remaining_lookup, decide_True.
    - by rewrite remaining_lookup, decide_True. }
  split.
  - intros Hn. destruct (Hpogm Hn) as [H1 H2].
    rewrite Hgone in H1, H2; [| rewrite Hn; set_unfold; auto | auto
                              | rewrite Hn; set_unfold; auto | auto].
    split; by apply explicit_keyword_reaches.
  - intros Hn. destruct (Hfista Hn) as [H1 H2].
    rewrite Hgone in H1, H2; [| rewrite Hn; set_unfold; auto | auto
                              | rewrite Hn; set_unfold; auto | auto].
    split; by apply explicit_keyword_reaches.
Qed.

(** The first call takes [sigma_bar = 0.5] out of the dictionary at 1;
    the second call on the store it leaves builds with 0.96. *)
Lemma second_call_takes_defaults_witness :
  ∃ s1 o1 s2 o2,
    initialize_opt (Some "pogm") Sample.grad_synthesis Sample.linear
      Sample.prox None false (Some 1%positive) (Some 2%positive)
      Sample.caller = (s1, Returns o1) ∧
    initialize_opt (Some "pogm") Sample.grad_synthesis Sample.linear
      Sample.prox None false (Some 1%positive) (Some 2%positive) s1
    = (s2, Returns o2) ∧
    init_kwargs o1 !! "sigma_bar" = Some (VFloat 0.5) ∧
    init_kwargs o2 !! "sigma_bar" = Some (VFloat 0.96).
Proof.
  eexists _, _, _, _.
  split; [vm_compute; reflexivity |].
  split; [vm_compute; reflexivity |].
  split; [vm_compute; reflexivity |].
  eapply (second_call_takes_defaults (Some "pogm") Sample.grad_synthesis
            Sample.linear Sample.prox None false 1%positive
            (Some 2%positive) Sample.caller).
  - vm_compute. reflexivity.
  - vm_compute. reflexivity.
  - reflexivity.
Defined.

Lemma disjoint_from_itself (d : dict) : d ##ₘ d ↔ d = ∅.
Proof.
  split.
  - intros Hd. apply map_empty. intros k.
    rewrite map_disjoint_alt in Hd. by destruct (Hd k).
  - intros ->. apply map_disjoint_empty_l.
Qed.

(** X12. When one dictionary is passed as both [opt_kwargs] and
    [metric_kwargs], it is unpacked into the call twice: the call
    returns only if the pops of its branch leave that dictionary empty,
    and raises [TypeError] if any other key is in it. *)
Theorem one_dictionary_for_both opt_name grad_op linear_op prox_op x_init
    synthesis_init l s :
  opt_name = Some "fista" ∨ opt_name = Some "condat-vu" ∨
  opt_name = Some "pogm" ∧ guard_first synthesis_init grad_op = true →
  let r := (initialize_opt opt_name grad_op linear_op prox_op x_init
              synthesis_init (Some l) (Some l) s).2 in
  ((∃ o, r = Returns o) ↔ remaining opt_name (dict_at s l) = ∅) ∧
  (remaining opt_name (dict_at s l) ≠ ∅ → r = Raises TypeError_multiple_values).
Proof.
  intros Hname.
  destruct (initialize_opt_run opt_name grad_op linear_op prox_op x_init
              synthesis_init (Some l) (Some l) s) as (s' & -> & _).
  cbv zeta. simpl.
  edestruct outcome_is_call as (c & ex & _ & Hex & -> & _).
  { destruct Hname as [-> | [-> | [-> _]]]; by eexists. }
  { intros Hpogm. apply alpha_init_bound.
    destruct Hname as [-> | [-> | [_ ?]]]; done. }
  unfold unpacked_opt, unpacked_metric. rewrite decide_True by done. simpl.
  set (d := remaining opt_name (dict_at s l)).
  assert (d ≠ ∅ → construct c ex [d; d] = Raises TypeError_multiple_values)
    as Hclash.
  { intros Hne. apply construct_clash. intros [_ Hd].
    by apply disjoint_from_itself in Hd. }
  split; [split |].
  - intros [o Ho]. destruct (decide (d = ∅)) as [? | Hne]; [done |].
    by rewrite (Hclash Hne) in Ho.
  - intros ->. eexists. apply construct_distinct.
    + intros k _. by rewrite lookup_empty.
    + apply map_disjoint_empty_l.
  - exact Hclash.
Qed.

(** The dictionary that holds only popped keys goes through; the one
    that holds [verbose] as well does not. *)
Lemma one_dictionary_for_both_witness :
  (∃ o,
     (initialize_opt (Some "pogm") Sample.grad_synthesis Sample.linear
        Sample.prox None false (Some 1%positive) (Some 1%positive)
        Scenario.only_popped).2 = Returns o) ∧
  (initialize_opt (Some "pogm") Sample.grad_synthesis Sample.linear
     Sample.prox None false (Some 1%positive) (Some 1%positive)
     Sample.caller).2 = Raises TypeError_multiple_values.
Proof.
  split.
  - apply (one_dictionary_for_both (Some "pogm") Sample.grad_synthesis
             Sample.linear Sample.prox None false 1%positive
             Scenario.only_popped).
    + right. right. split; reflexivity.
    + vm_compute. reflexivity.
  - apply (one_dictionary_for_both (Some "pogm") Sample.grad_synthesis
             Sample.linear Sample.prox None false 1%positive Sample.caller).
    + right. right. split; reflexivity.
    + intros Hempty.
      apply (f_equal (λ d : dict, d !! "verbose")) in Hempty.
      vm_compute in Hempty. discriminate Hempty.
Defined.
